(** * switch_model.policies.Curtailment

    A shallow embedding of the curtailment policy module of Switch
    ([switch_model/policies/Curtailment.py]) and of the part of Pyomo and
    pandas it is written against, with the properties of the components it
    declares, of its input loader and of its report. *)

From Stdlib Require Import ZArith QArith Lqa Lia Ascii String.
From stdpp Require Import base option list sorting gmap strings.

Local Open Scope Q_scope.

(** ** Identifiers of the base dispatch model *)

Abbreviation period := Z (only parsing).
Abbreviation timepoint := Z (only parsing).
Abbreviation gen := string (only parsing).
Abbreviation energy_source := string (only parsing).
Abbreviation fuel := string (only parsing).
Abbreviation limit_key := (Z * string)%type (only parsing).

(** ** Exceptions

    Python code either returns or raises; the exception classes the module
    can meet are kept apart. *)

Inductive error : Type :=
  | KeyError     (* an index outside the index set of a component *)
  | ValueError   (* a rejected element or rule result *)
  | IOError      (* a file that cannot be opened *)
  | RuntimeError. (* a failure while a Param is filled from its data *)

Inductive result (A : Type) : Type :=
  | Ok (a : A)
  | Raise (e : error).
Arguments Ok {A} a.
Arguments Raise {A} e.

Global Instance result_ret : MRet result := λ A a, Ok a.
Global Instance result_bind : MBind result := λ A B k r,
  match r with
  | Ok a => k a
  | Raise e => Raise e
  end.

(** ** Pyomo expressions

    A rule does not compute a number: indexing a [Var] or an [Expression]
    gives a symbolic leaf, arithmetic on leaves builds a tree, and a
    comparison of trees is a relational expression.  Arithmetic and
    comparison of two plain numbers stay plain Python. *)

Inductive leaf : Type :=
  | DispatchGen (g : gen) (t : timepoint)
  | Curtailment (g : gen) (t : timepoint)
  | DispatchUpperLimit (g : gen) (t : timepoint)
  | DispatchEmissions (g : gen) (t : timepoint) (f : fuel).

Inductive expr : Type :=
  | EConst (q : Q)
  | ELeaf (x : leaf)
  | EAdd (a b : expr)
  | EMul (a b : expr)
  | EDiv (a b : expr).

Inductive pyval : Type :=
  | PNum (q : Q)
  | PExpr (e : expr).

Inductive relation_kind : Type := REq | RLe.

Record constraint : Type := {
  c_lhs : expr;
  c_rel : relation_kind;
  c_rhs : expr }.

(** What a comparison returns: a Python [bool] between numbers, a
    relational expression as soon as one side is symbolic. *)
Inductive truth : Type :=
  | PBool (b : bool)
  | PRel (c : constraint).

Definition to_expr (v : pyval) : expr :=
  match v with
  | PNum q => EConst q
  | PExpr e => e
  end.

Definition py_add (a b : pyval) : pyval :=
  match a, b with
  | PNum x, PNum y => PNum (x + y)
  | _, _ => PExpr (EAdd (to_expr a) (to_expr b))
  end.

Definition py_mul (a b : pyval) : pyval :=
  match a, b with
  | PNum x, PNum y => PNum (x * y)
  | _, _ => PExpr (EMul (to_expr a) (to_expr b))
  end.

Definition py_div (a b : pyval) : pyval :=
  match a, b with
  | PNum x, PNum y => PNum (x / y)
  | _, _ => PExpr (EDiv (to_expr a) (to_expr b))
  end.

Definition py_eq (a b : pyval) : truth :=
  match a, b with
  | PNum x, PNum y => PBool (Qeq_bool x y)
  | _, _ => PRel {| c_lhs := to_expr a; c_rel := REq; c_rhs := to_expr b |}
  end.

Definition py_le (a b : pyval) : truth :=
  match a, b with
  | PNum x, PNum y => PBool (Qle_bool x y)
  | _, _ => PRel {| c_lhs := to_expr a; c_rel := RLe; c_rhs := to_expr b |}
  end.

(** Python's [sum]: starts from the integer 0 and adds from the left. *)
Definition py_sum (terms : list pyval) : pyval :=
  fold_left py_add terms (PNum 0).

(** The sum of a list of numbers, from the left as well. *)
Definition Qsum (l : list Q) : Q := fold_left Qplus l 0.

(** A solution gives a value to every leaf. *)
Definition solution : Type := leaf → Q.

Fixpoint evaluate (sol : solution) (e : expr) : Q :=
  match e with
  | EConst q => q
  | ELeaf x => sol x
  | EAdd a b => evaluate sol a + evaluate sol b
  | EMul a b => evaluate sol a * evaluate sol b
  | EDiv a b => evaluate sol a / evaluate sol b
  end.

(** Pyomo's [value()], of a number or of an expression. *)
Definition value (sol : solution) (v : pyval) : Q :=
  evaluate sol (to_expr v).

Definition satisfies (sol : solution) (c : constraint) : Prop :=
  match c_rel c with
  | REq => evaluate sol (c_lhs c) == evaluate sol (c_rhs c)
  | RLe => evaluate sol (c_lhs c) <= evaluate sol (c_rhs c)
  end.

(** ** Pyomo components *)

(** [Set(dimen=2, validate=...)]: every element offered to the set goes
    through [validate]; a rejected element raises.  An element already
    present is not added twice. *)
Fixpoint Set_construct {K} `{EqDecision K} (validate : K → bool)
    (elems : list K) (acc : list K) : result (list K) :=
  match elems with
  | [] => Ok acc
  | k :: rest =>
      if validate k
      then Set_construct validate rest
             (if bool_decide (k ∈ acc) then acc else acc ++ [k])
      else Raise ValueError
  end.

(** [Param(index, within=..., default=...)]: the values given are kept in a
    dict; every other index of the index set reads as the default.  While
    the Param is filled, a value outside its domain or at a key outside its
    index set ends the construction with a RuntimeError. *)
Record Param : Type := {
  p_index : list limit_key;
  p_data : gmap limit_key Q;
  p_default : Q }.

Definition NonNegativeReals (q : Q) : bool := Qle_bool 0 q.

Fixpoint Param_store (index : list limit_key) (within : Q → bool)
    (entries : list (limit_key * Q)) (acc : gmap limit_key Q)
    : result (gmap limit_key Q) :=
  match entries with
  | [] => Ok acc
  | (k, v) :: rest =>
      if bool_decide (k ∈ index)
      then if within v
           then Param_store index within rest (<[k := v]> acc)
           else Raise RuntimeError
      else Raise RuntimeError
  end.

Definition Param_construct (index : list limit_key) (within : Q → bool)
    (default : Q) (entries : list (limit_key * Q)) : result Param :=
  d ← Param_store index within entries ∅;
  Ok {| p_index := index; p_data := d; p_default := default |}.

(** [param[k]]: the stored value, else the default for an index of the
    index set, else [KeyError]. *)
Definition Param_getitem (P : Param) (k : limit_key) : result Q :=
  match p_data P !! k with
  | Some v => Ok v
  | None => if bool_decide (k ∈ p_index P) then Ok (p_default P)
            else Raise KeyError
  end.

(** [var[g, t]] for a [Var] or [Expression] declared over [index]. *)
Definition Var_getitem (c : gen → timepoint → leaf)
    (index : list (gen * timepoint)) (g : gen) (t : timepoint)
    : result pyval :=
  if bool_decide ((g, t) ∈ index) then Ok (PExpr (ELeaf (c g t)))
  else Raise KeyError.

(** [Constraint(index, rule=...)]: the rule is run at every index; a rule
    that comes back with a Python [bool] instead of a relational expression
    is refused. *)
Definition Constraint_construct {K} (rule : K → result truth)
    (index : list K) : result (list (K * constraint)) :=
  mapM (λ k, r ← rule k;
             match r with
             | PRel c => Ok (k, c)
             | PBool _ => Raise ValueError
             end) index.

(** [Expression(index, rule=...)]. *)
Definition Expression_construct {K} (rule : K → result pyval)
    (index : list K) : result (list (K * expr)) :=
  mapM (λ k, v ← rule k; Ok (k, to_expr v)) index.

(** ** The base model

    What [define_components] and [post_solve] read from the model they are
    given; all of it is declared by the core modules. *)

Record BaseModel : Type := {
  PERIODS : list period;
  ENERGY_SOURCES : list energy_source;
  GENERATION_PROJECTS : list gen;
  TPS_IN_PERIOD : period → list timepoint;
  GEN_TPS : list (gen * timepoint);
  FUELS_FOR_GEN : gen → list fuel;
  gen_energy_source : gen → energy_source;
  gen_dbid : gen → string;
  gen_tech : gen → string;
  gen_load_zone : gen → string;
  gen_uses_fuel : gen → bool;
  gen_variable_om : gen → Q;
  tp_weight : timepoint → Q;
  tp_weight_in_year : timepoint → Q;
  tp_timestamp : timepoint → string;
  tp_period : timepoint → period }.

(** What the data portal holds for this module once the inputs are loaded. *)
Record DataPortal : Type := {
  d_PERIOD_Curtailment_MAX : list limit_key;
  d_max_curtailment_Rate : list (limit_key * Q) }.

(** ** define_components *)

Section Rules.
Variable m : BaseModel.

(** validate=lambda m, p, e: (p in m.PERIODS and e in m.ENERGY_SOURCES) *)
Definition PERIOD_Curtailment_MAX_validate (k : limit_key) : bool :=
  let '(p, e) := k in
  bool_decide (p ∈ PERIODS m) && bool_decide (e ∈ ENERGY_SOURCES m).

(** for (g,t) in m.GENERATION_PROJECTS*m.TPS_IN_PERIOD[p]
      if m.gen_energy_source[g] == e *)
Definition pairs_of_source (p : period) (e : energy_source)
    : list (gen * timepoint) :=
  filter (λ gt, gen_energy_source m gt.1 = e)
         (g ← GENERATION_PROJECTS m; t ← TPS_IN_PERIOD m p; [(g, t)]).

(** m.Curtailment[g, t], with Curtailment = Var(mod.GEN_TPS, ...) *)
Definition Curtailment_getitem (g : gen) (t : timepoint) : result pyval :=
  Var_getitem Curtailment (GEN_TPS m) g t.

(** The leaves of the base model. *)
Definition DispatchGen_getitem (g : gen) (t : timepoint) : pyval :=
  PExpr (ELeaf (DispatchGen g t)).
Definition DispatchUpperLimit_getitem (g : gen) (t : timepoint) : pyval :=
  PExpr (ELeaf (DispatchUpperLimit g t)).

(** sum(m.Curtailment[g, t] for (g,t) in ... if ...) *)
Definition Curtailment_Cost_rule (k : limit_key) : result pyval :=
  let '(p, e) := k in
  terms ← mapM (λ gt, Curtailment_getitem gt.1 gt.2)
               (pairs_of_source p e);
  Ok (py_sum terms).

(** m.DispatchGen[g, t] + m.Curtailment[g, t] == m.DispatchUpperLimit[g, t] *)
Definition Dispatch_Curtailment_rule (gt : gen * timepoint)
    : result truth :=
  let '(g, t) := gt in
  c ← Curtailment_getitem g t;
  Ok (py_eq (py_add (DispatchGen_getitem g t) c)
            (DispatchUpperLimit_getitem g t)).

(** sum(m.Curtailment[g, t] * m.tp_weight[t] for ...)
      <= m.max_curtailment_Rate[p, e]
         * sum(m.DispatchUpperLimit[g, t] * m.tp_weight[t] for ...) *)
Definition Curtailment_Rate_rule (max_curtailment_Rate : Param)
    (k : limit_key) : result truth :=
  let '(p, e) := k in
  lhs ← mapM (λ gt, c ← Curtailment_getitem gt.1 gt.2;
                     Ok (py_mul c (PNum (tp_weight m gt.2))))
             (pairs_of_source p e);
  r ← Param_getitem max_curtailment_Rate (p, e);
  let rhs := map (λ gt, py_mul (DispatchUpperLimit_getitem gt.1 gt.2)
                               (PNum (tp_weight m gt.2)))
                 (pairs_of_source p e) in
  Ok (py_le (py_sum lhs) (py_mul (PNum r) (py_sum rhs))).
End Rules.

(** The model once the components of this module are attached to it. *)
Record Model : Type := {
  base : BaseModel;
  PERIOD_Curtailment_MAX : list limit_key;
  max_curtailment_Rate : Param;
  Curtailment_index : list (gen * timepoint);
  Curtailment_within : Q → bool;
  Curtailment_Cost : list (limit_key * expr);
  Dispatch_Curtailment : list ((gen * timepoint) * constraint);
  Curtailment_Rate : list (limit_key * constraint) }.

(** The components are built in the order in which [define_components]
    attaches them, from the data the portal holds; the first one that raises
    ends the build. *)
Definition define_components (mod_ : BaseModel) (data : DataPortal)
    : result Model :=
  keys ← Set_construct (PERIOD_Curtailment_MAX_validate mod_)
           (d_PERIOD_Curtailment_MAX data) [];
  rate ← Param_construct keys NonNegativeReals 1
           (d_max_curtailment_Rate data);
  cost ← Expression_construct (Curtailment_Cost_rule mod_) keys;
  dc ← Constraint_construct (Dispatch_Curtailment_rule mod_) (GEN_TPS mod_);
  cr ← Constraint_construct (Curtailment_Rate_rule mod_ rate) keys;
  Ok {| base := mod_;
        PERIOD_Curtailment_MAX := keys;
        max_curtailment_Rate := rate;
        Curtailment_index := GEN_TPS mod_;
        Curtailment_within := NonNegativeReals;
        Curtailment_Cost := cost;
        Dispatch_Curtailment := dc;
        Curtailment_Rate := cr |}.

(** A feasible solution respects the domain of [Curtailment] and every
    constraint of this module; the constraints of the other modules can
    only take solutions away. *)
Definition feasible (m : Model) (sol : solution) : Prop :=
  (∀ g t, (g, t) ∈ Curtailment_index m →
          Curtailment_within m (sol (Curtailment g t)) = true) ∧
  (∀ gt c, (gt, c) ∈ Dispatch_Curtailment m → satisfies sol c) ∧
  (∀ k c, (k, c) ∈ Curtailment_Rate m → satisfies sol c).

(** The sum of [x[g, t] * tp_weight[t]] in a solution, over the projects
    [g] of energy source [e] and the timepoints [t] of period [p]. *)
Definition weighted_total (m : BaseModel) (p : period) (e : energy_source)
    (x : gen → timepoint → leaf) (sol : solution) : Q :=
  Qsum ((λ gt, sol (x gt.1 gt.2) * tp_weight m gt.2)
        <$> pairs_of_source m p e).

(** ** load_inputs *)

(** Modelled from the spec: the input file, a "whitespace/tab-delimited
    table with header columns", "one row per constrained (period, source)
    pair". *)
Inductive cell : Type :=
  | CInt (z : Z)
  | CNum (q : Q)
  | CStr (s : string).

Record Table : Type := {
  header : list string;
  rows : list (list cell) }.

(** The files that exist, by path. *)
Abbreviation FileSystem := (string → option Table).

Fixpoint ends_with_sep (s : string) : bool :=
  match s with
  | EmptyString => false
  | String c s' =>
      match s' with
      | EmptyString => Ascii.eqb c "/"%char
      | String _ _ => ends_with_sep s'
      end
  end.

(** [os.path.join(a, b)] for a relative [b]. *)
Definition path_join (a b : string) : string :=
  match a with
  | EmptyString => b
  | String _ _ => if ends_with_sep a then a +:+ b else a +:+ "/" +:+ b
  end.

(** Modelled from the spec: the cell of a row under the header column
    called [name]. *)
Definition column (tab : Table) (name : string) (row : list cell)
    : option cell :=
  '(i, _) ← list_find (λ h, h = name) (header tab); row !! i.

(** Modelled from the spec: the cells of a row under the columns selected,
    in the order of [select]; a column that is missing is an error. *)
Definition select_columns (tab : Table) (select : list string)
    (row : list cell) : result (list cell) :=
  mapM (λ name, match column tab name row with
                | Some c => Ok c
                | None => Raise ValueError
                end) select.

(** Modelled from the spec: a selected row gives a key of the index set,
    of dimension two, and the value of the parameter at that key. *)
Definition decode_row (cells : list cell) : result (limit_key * Q) :=
  match cells with
  | [CInt p; CStr e; CNum r] => Ok ((p, e), r)
  | [CInt p; CStr e; CInt r] => Ok ((p, e), inject_Z r)
  | _ => Raise ValueError
  end.

(** What a loaded entry says about the row it comes from. *)
Definition row_entry (tab : Table) (row : list cell)
    (entry : limit_key * Q) : Prop :=
  column tab "Period" row = Some (CInt entry.1.1) ∧
  column tab "Energy_Source" row = Some (CStr entry.1.2) ∧
  (column tab "Max_Curtailment_Rate" row = Some (CNum entry.2) ∨
   ∃ z, column tab "Max_Curtailment_Rate" row = Some (CInt z) ∧
        entry.2 = inject_Z z).

(** Modelled from the spec: [load_aug] of [switch_model.utilities], which
    the module calls and which is not part of it.  "Read one mandatory
    tabular file with columns Period, Energy_Source, Max_Curtailment_Rate,
    and populate the curtailment-rate parameter keyed by (Period,
    Energy_Source).  Missing file is a fatal load-time error"; a malformed
    file is one as well.  The first two selected columns fill the index set,
    the third the parameter. *)
Definition load_aug (fs : FileSystem) (filename : string)
    (select : list string) : result DataPortal :=
  match fs filename with
  | None => Raise IOError
  | Some tab =>
      entries ← mapM (λ row, cells ← select_columns tab select row;
                             decode_row cells) (rows tab);
      Ok {| d_PERIOD_Curtailment_MAX := entries.*1;
            d_max_curtailment_Rate := entries |}
  end.

Definition load_inputs (fs : FileSystem) (inputs_dir : string)
    : result DataPortal :=
  load_aug fs (path_join inputs_dir "curtailment_rate_max.tab")
    ["Period"; "Energy_Source"; "Max_Curtailment_Rate"]%string.

(** The load phase followed by the build of the components. *)
Definition build (fs : FileSystem) (mod_ : BaseModel) (inputs_dir : string)
    : result Model :=
  data ← load_inputs fs inputs_dir;
  define_components mod_ data.

(** ** post_solve *)

(** A record of [dispatch_normalized_dat], one per (project, timepoint). *)
Module Dispatch.
Record row : Type := {
  generation_project : gen;
  gen_dbid : string;
  gen_tech : string;
  gen_load_zone : string;
  gen_energy_source : energy_source;
  timestamp : string;
  tp_weight_in_year_hrs : Q;
  period : Z;
  DispatchGen_MW_ideal : Q;
  DispatchGen_MW_actual : Q;
  Energy_GWh_typical_yr_ideal : Q;
  Energy_GWh_typical_yr_actual : Q;
  VariableCost_per_yr : Q;
  DispatchEmissions_tCO2_per_typical_yr : option Q }.
End Dispatch.

(** A row of [annual_summary]: the numeric columns, summed over a group. *)
Module Summary.
Record row : Type := {
  tp_weight_in_year_hrs : Q;
  DispatchGen_MW_ideal : Q;
  DispatchGen_MW_actual : Q;
  Energy_GWh_typical_yr_ideal : Q;
  Energy_GWh_typical_yr_actual : Q;
  VariableCost_per_yr : Q;
  DispatchEmissions_tCO2_per_typical_yr : Q }.
End Summary.

(** A row of [Curtailment_energy.csv]: the columns given to [to_csv]. *)
Module Energy.
Record row : Type := {
  Energy_GWh_typical_yr_ideal : Q;
  Energy_GWh_typical_yr_actual : Q;
  VariableCost_per_yr : Q;
  DispatchEmissions_tCO2_per_typical_yr : Q }.
End Energy.

Abbreviation group_key := (string * string * Z)%type (only parsing).

Definition dispatch_record (instance : BaseModel) (sol : solution)
    (gt : gen * timepoint) : Dispatch.row :=
  let '(g, t) := gt in
  {| Dispatch.generation_project := g;
     Dispatch.gen_dbid := gen_dbid instance g;
     Dispatch.gen_tech := gen_tech instance g;
     Dispatch.gen_load_zone := gen_load_zone instance g;
     Dispatch.gen_energy_source := gen_energy_source instance g;
     Dispatch.timestamp := tp_timestamp instance t;
     Dispatch.tp_weight_in_year_hrs := tp_weight_in_year instance t;
     Dispatch.period := tp_period instance t;
     Dispatch.DispatchGen_MW_ideal :=
       value sol (DispatchUpperLimit_getitem g t);
     Dispatch.DispatchGen_MW_actual :=
       value sol (DispatchGen_getitem g t);
     Dispatch.Energy_GWh_typical_yr_ideal :=
       value sol (py_div (py_mul (DispatchUpperLimit_getitem g t)
                                 (PNum (tp_weight_in_year instance t)))
                         (PNum 1000));
     Dispatch.Energy_GWh_typical_yr_actual :=
       value sol (py_div (py_mul (DispatchGen_getitem g t)
                                 (PNum (tp_weight_in_year instance t)))
                         (PNum 1000));
     Dispatch.VariableCost_per_yr :=
       value sol (py_mul (py_mul (DispatchUpperLimit_getitem g t)
                                 (PNum (gen_variable_om instance g)))
                         (PNum (tp_weight_in_year instance t)));
     Dispatch.DispatchEmissions_tCO2_per_typical_yr :=
       if gen_uses_fuel instance g
       then Some (value sol (py_sum
              (map (λ f, py_mul (PExpr (ELeaf (DispatchEmissions g t f)))
                                (PNum (tp_weight_in_year instance t)))
                   (FUELS_FOR_GEN instance g))))
       else None |}.

Definition dispatch_normalized_dat (instance : BaseModel) (sol : solution)
    : list Dispatch.row :=
  map (dispatch_record instance sol) (GEN_TPS instance).

(** *** groupby(...).sum() *)

Definition key_of (r : Dispatch.row) : group_key :=
  (Dispatch.gen_tech r, Dispatch.gen_energy_source r, Dispatch.period r).

(** Group keys are put in increasing order, column by column. *)
Definition key_compare (a b : group_key) : comparison :=
  let '(tech1, src1, p1) := a in
  let '(tech2, src2, p2) := b in
  match String.compare tech1 tech2 with
  | Eq => match String.compare src1 src2 with
          | Eq => Z.compare p1 p2
          | c => c
          end
  | c => c
  end.

Definition key_le (a b : group_key) : Prop := key_compare a b ≠ Gt.

Global Instance key_le_dec : RelDecision key_le.
Proof. intros a b. unfold key_le. apply _. Defined.

Definition group_keys (df : list Dispatch.row) : list group_key :=
  merge_sort key_le (remove_dups (key_of <$> df)).

(** The same for a column with missing values: they are skipped, and the
    sum of no value at all is 0. *)
Definition Qsum_skipna (l : list (option Q)) : Q := Qsum (omap id l).

Definition sum_group (rows : list Dispatch.row) : Summary.row :=
  {| Summary.tp_weight_in_year_hrs :=
       Qsum (Dispatch.tp_weight_in_year_hrs <$> rows);
     Summary.DispatchGen_MW_ideal :=
       Qsum (Dispatch.DispatchGen_MW_ideal <$> rows);
     Summary.DispatchGen_MW_actual :=
       Qsum (Dispatch.DispatchGen_MW_actual <$> rows);
     Summary.Energy_GWh_typical_yr_ideal :=
       Qsum (Dispatch.Energy_GWh_typical_yr_ideal <$> rows);
     Summary.Energy_GWh_typical_yr_actual :=
       Qsum (Dispatch.Energy_GWh_typical_yr_actual <$> rows);
     Summary.VariableCost_per_yr :=
       Qsum (Dispatch.VariableCost_per_yr <$> rows);
     Summary.DispatchEmissions_tCO2_per_typical_yr :=
       Qsum_skipna (Dispatch.DispatchEmissions_tCO2_per_typical_yr <$> rows) |}.

(** [df.groupby(['gen_tech', "gen_energy_source", "period"]).sum()]: one row
    per key that occurs, holding the sums over the rows with that key.  The
    emissions cell is that of a column of numbers; whether the frame has
    such a column is settled by [emissions_numeric], below. *)
Definition groupby_sum (df : list Dispatch.row)
    : list (group_key * Summary.row) :=
  (λ k, (k, sum_group (filter (λ r, key_of r = k) df))) <$> group_keys df.

(** [to_csv(..., columns=[...])] keeps the index and the columns named. *)
Definition energy_columns (r : Summary.row) : Energy.row :=
  {| Energy.Energy_GWh_typical_yr_ideal :=
       Summary.Energy_GWh_typical_yr_ideal r;
     Energy.Energy_GWh_typical_yr_actual :=
       Summary.Energy_GWh_typical_yr_actual r;
     Energy.VariableCost_per_yr := Summary.VariableCost_per_yr r;
     Energy.DispatchEmissions_tCO2_per_typical_yr :=
       Summary.DispatchEmissions_tCO2_per_typical_yr r |}.

Inductive csv : Type :=
  | DetailCsv (rows : list Dispatch.row)
  | EnergyCsv (rows : list (group_key * Energy.row)).

(** The files of a run of [post_solve] that completes, in the order it
    writes them.  The solved instance is the model with the values of the
    solution. *)
Definition post_solve (instance : BaseModel) (sol : solution)
    (outdir : string) : list (string * csv) :=
  let dispatch_full_df := dispatch_normalized_dat instance sol in
  let annual_summary := groupby_sum dispatch_full_df in
  [ (path_join outdir "dispatch.csv", DetailCsv dispatch_full_df);
    (path_join outdir "Curtailment_energy.csv",
     EnergyCsv (prod_map id energy_columns <$> annual_summary)) ].

(** Whether the emissions column of the detail frame is a column of
    numbers.  It is one as soon as a record has emissions, None then
    standing for a missing number; with None in every record it is a column
    of objects. *)
Definition emissions_numeric (df : list Dispatch.row) : bool :=
  existsb (λ r, match Dispatch.DispatchEmissions_tCO2_per_typical_yr r with
                | Some _ => true
                | None => false
                end) df.

(** [post_solve] as it runs on pandas before 2.0: the files written, in
    order, and how the call ends.  A frame made from no record has no
    column, and [set_index] raises a KeyError before any file is written.
    [groupby(...).sum()] sums the columns of numbers and drops a column of
    objects it cannot sum: when no record has emissions the summary has no
    emissions column, and [to_csv], asked for it, raises a KeyError once
    dispatch.csv is written. *)
Definition post_solve_run (instance : BaseModel) (sol : solution)
    (outdir : string) : list (string * csv) * result () :=
  let dispatch_full_df := dispatch_normalized_dat instance sol in
  match dispatch_full_df with
  | [] => ([], Raise KeyError)
  | _ :: _ =>
      let detail :=
        (path_join outdir "dispatch.csv", DetailCsv dispatch_full_df) in
      if emissions_numeric dispatch_full_df
      then ([ detail;
              (path_join outdir "Curtailment_energy.csv",
               EnergyCsv (prod_map id energy_columns
                          <$> groupby_sum dispatch_full_df)) ],
            Ok ())
      else ([detail], Raise KeyError)
  end.

(** The emissions of a project at a timepoint, over a year: the sum of
    [DispatchEmissions[g, t, f] * tp_weight_in_year[t]] over its fuels. *)
Definition fuel_emissions (instance : BaseModel) (sol : solution)
    (gt : gen * timepoint) : Q :=
  Qsum ((λ f, sol (DispatchEmissions gt.1 gt.2 f)
              * tp_weight_in_year instance gt.2)
        <$> FUELS_FOR_GEN instance gt.1).

(** ** A small system

    One period, one timepoint, two solar projects and a gas plant; the
    curtailment of solar energy is capped at 20 %. *)

Definition example_model : BaseModel :=
  {| PERIODS := [2030%Z];
     ENERGY_SOURCES := ["Solar"; "Wind"; "Gas"]%string;
     GENERATION_PROJECTS := ["G1"; "G2"; "G3"]%string;
     TPS_IN_PERIOD := λ p, if (p =? 2030)%Z then [1%Z] else [];
     GEN_TPS := [("G1", 1%Z); ("G2", 1%Z); ("G3", 1%Z)]%string;
     FUELS_FOR_GEN := λ g, if String.eqb g "G3" then ["Gas"%string] else [];
     gen_energy_source :=
       λ g, if String.eqb g "G3" then "Gas"%string else "Solar"%string;
     gen_dbid := λ g, g;
     gen_tech := λ g, if String.eqb g "G3" then "CCGT"%string else "PV"%string;
     gen_load_zone := λ _, "Z1"%string;
     gen_uses_fuel := λ g, String.eqb g "G3";
     gen_variable_om := λ _, 2;
     tp_weight := λ _, 10;
     tp_weight_in_year := λ _, 10;
     tp_timestamp := λ _, "T1"%string;
     tp_period := λ _, 2030%Z |}.

Definition example_table : Table :=
  {| header := ["Period"; "Energy_Source"; "Max_Curtailment_Rate"]%string;
     rows := [[CInt 2030; CStr "Solar"; CNum (2 # 10)]] |}.

Definition example_files : FileSystem :=
  λ path, if String.eqb path "inputs/curtailment_rate_max.tab"
          then Some example_table else None.

Definition example_solution : solution :=
  λ x, match x with
       | DispatchGen _ _ => 80
       | Curtailment _ _ => 20
       | DispatchUpperLimit _ _ => 100
       | DispatchEmissions _ _ _ => 3
       end.

Definition example_data : DataPortal :=
  {| d_PERIOD_Curtailment_MAX := [(2030%Z, "Solar"%string)];
     d_max_curtailment_Rate := [((2030%Z, "Solar"%string), 2 # 10)] |}.

Definition example_equality (g : gen) : (gen * timepoint) * constraint :=
  ((g, 1%Z),
   {| c_lhs := EAdd (ELeaf (DispatchGen g 1)) (ELeaf (Curtailment g 1));
      c_rel := REq;
      c_rhs := ELeaf (DispatchUpperLimit g 1) |}).

Definition example_total (x : gen → timepoint → leaf) : expr :=
  EAdd (EAdd (EConst 0) (EMul (ELeaf (x "G1"%string 1%Z)) (EConst 10)))
       (EMul (ELeaf (x "G2"%string 1%Z)) (EConst 10)).

(** The model [define_components] builds for the small system. *)
Definition example_built : Model :=
  {| base := example_model;
     PERIOD_Curtailment_MAX := [(2030%Z, "Solar"%string)];
     max_curtailment_Rate :=
       {| p_index := [(2030%Z, "Solar"%string)];
          p_data := {[ (2030%Z, "Solar"%string) := 2 # 10 ]};
          p_default := 1 |};
     Curtailment_index := GEN_TPS example_model;
     Curtailment_within := NonNegativeReals;
     Curtailment_Cost :=
       [((2030%Z, "Solar"%string),
         EAdd (EAdd (EConst 0) (ELeaf (Curtailment "G1" 1)))
              (ELeaf (Curtailment "G2" 1)))];
     Dispatch_Curtailment :=
       [example_equality "G1"; example_equality "G2"; example_equality "G3"];
     Curtailment_Rate :=
       [((2030%Z, "Solar"%string),
         {| c_lhs := example_total Curtailment;
            c_rel := RLe;
            c_rhs := EMul (EConst (2 # 10))
                          (example_total DispatchUpperLimit) |})] |}.

(** Data with a key for a period the system does not have. *)
Definition undeclared : DataPortal :=
  {| d_PERIOD_Curtailment_MAX :=
       [(2030%Z, "Solar"%string); (2040%Z, "Solar"%string)];
     d_max_curtailment_Rate := [((2030%Z, "Solar"%string), 2 # 10)] |}.

(** Data that offers a key and gives it no value. *)
Definition unvalued : DataPortal :=
  {| d_PERIOD_Curtailment_MAX := [(2030%Z, "Solar"%string)];
     d_max_curtailment_Rate := [] |}.

Definition unvalued_built : Model :=
  {| base := example_model;
     PERIOD_Curtailment_MAX := [(2030%Z, "Solar"%string)];
     max_curtailment_Rate :=
       {| p_index := [(2030%Z, "Solar"%string)];
          p_data := ∅;
          p_default := 1 |};
     Curtailment_index := GEN_TPS example_model;
     Curtailment_within := NonNegativeReals;
     Curtailment_Cost := Curtailment_Cost example_built;
     Dispatch_Curtailment := Dispatch_Curtailment example_built;
     Curtailment_Rate :=
       [((2030%Z, "Solar"%string),
         {| c_lhs := example_total Curtailment;
            c_rel := RLe;
            c_rhs := EMul (EConst 1) (example_total DispatchUpperLimit) |})] |}.

(** The small system with the second solar project out of service at the
    only timepoint: it has no dispatch there. *)
Definition stranded_model : BaseModel :=
  {| PERIODS := PERIODS example_model;
     ENERGY_SOURCES := ENERGY_SOURCES example_model;
     GENERATION_PROJECTS := GENERATION_PROJECTS example_model;
     TPS_IN_PERIOD := TPS_IN_PERIOD example_model;
     GEN_TPS := [("G1", 1%Z); ("G3", 1%Z)]%string;
     FUELS_FOR_GEN := FUELS_FOR_GEN example_model;
     gen_energy_source := gen_energy_source example_model;
     gen_dbid := gen_dbid example_model;
     gen_tech := gen_tech example_model;
     gen_load_zone := gen_load_zone example_model;
     gen_uses_fuel := gen_uses_fuel example_model;
     gen_variable_om := gen_variable_om example_model;
     tp_weight := tp_weight example_model;
     tp_weight_in_year := tp_weight_in_year example_model;
     tp_timestamp := tp_timestamp example_model;
     tp_period := tp_period example_model |}.

(** Data that caps wind energy, of which the small system has no project. *)
Definition wind_data : DataPortal :=
  {| d_PERIOD_Curtailment_MAX := [(2030%Z, "Wind"%string)];
     d_max_curtailment_Rate := [((2030%Z, "Wind"%string), 1 # 2)] |}.

(** Data with a negative rate. *)
Definition negative_data : DataPortal :=
  {| d_PERIOD_Curtailment_MAX := [(2030%Z, "Solar"%string)];
     d_max_curtailment_Rate := [((2030%Z, "Solar"%string), -1 # 10)] |}.

(** Data that forbids the curtailment of solar energy. *)
Definition zero_data : DataPortal :=
  {| d_PERIOD_Curtailment_MAX := [(2030%Z, "Solar"%string)];
     d_max_curtailment_Rate := [((2030%Z, "Solar"%string), 0)] |}.

Definition zero_built : Model :=
  {| base := example_model;
     PERIOD_Curtailment_MAX := [(2030%Z, "Solar"%string)];
     max_curtailment_Rate :=
       {| p_index := [(2030%Z, "Solar"%string)];
          p_data := {[ (2030%Z, "Solar"%string) := 0 ]};
          p_default := 1 |};
     Curtailment_index := GEN_TPS example_model;
     Curtailment_within := NonNegativeReals;
     Curtailment_Cost := Curtailment_Cost example_built;
     Dispatch_Curtailment := Dispatch_Curtailment example_built;
     Curtailment_Rate :=
       [((2030%Z, "Solar"%string),
         {| c_lhs := example_total Curtailment;
            c_rel := RLe;
            c_rhs := EMul (EConst 0) (example_total DispatchUpperLimit) |})] |}.

(** The solution that dispatches every project at its ceiling and curtails
    nothing, the ceilings being those of [sol]. *)
Definition no_curtailment (sol : solution) : solution :=
  λ x, match x with
       | DispatchGen g t => sol (DispatchUpperLimit g t)
       | Curtailment _ _ => 0
       | DispatchUpperLimit _ _ | DispatchEmissions _ _ _ => sol x
       end.


(** * Properties *)

(** ** Exceptions and comprehensions *)

Lemma bind_Ok {A B} (r : result A) (k : A → result B) (b : B) :
  r ≫= k = Ok b ↔ ∃ a, r = Ok a ∧ k a = Ok b.
Proof.
  destruct r as [a|e]; simpl; split.
  - eauto.
  - by intros (a' & [= ->] & ?).
  - done.
  - by intros (? & ? & ?).
Qed.

Lemma mapM_Ok {A B} (f : A → result B) (l : list A) (bs : list B) :
  mapM f l = Ok bs ↔ Forall2 (λ a b, f a = Ok b) l bs.
Proof.
  revert bs. induction l as [|a l IH]; intros bs; simpl.
  - split.
    + intros [= <-]. constructor.
    + by inversion 1.
  - split.
    + intros H. change (f a ≫= (λ b, mapM f l ≫= λ k, Ok (b :: k)) = Ok bs) in H.
      apply bind_Ok in H as (b & Hb & H).
      apply bind_Ok in H as (k & Hk & [= <-]).
      constructor; [done | by apply IH].
    + inversion 1 as [|? b ? k Hb Hk]; subst.
      change (f a ≫= (λ b, mapM f l ≫= λ k, Ok (b :: k)) = Ok (b :: k)).
      rewrite Hb. simpl. apply IH in Hk. by rewrite Hk.
Qed.

Lemma mapM_Ok_elem {A B} (f : A → result B) (l : list A) (bs : list B) a :
  mapM f l = Ok bs → a ∈ l → ∃ b, f a = Ok b ∧ b ∈ bs.
Proof.
  rewrite mapM_Ok. intros H Ha.
  destruct (list_elem_of_lookup_1 _ _ Ha) as [i Hi].
  destruct (Forall2_lookup_l _ _ _ _ _ H Hi) as (b & Hb & Hf).
  exists b. split; [done | by eapply list_elem_of_lookup_2].
Qed.

Lemma mapM_Raise {A B} (f : A → result B) (l : list A) a e :
  a ∈ l → (∀ x, x ∈ l → f x = Raise e ∨ ∃ b, f x = Ok b) →
  f a = Raise e → mapM f l = Raise e.
Proof.
  induction l as [|x l IH]; intros Ha Hall Hfa; [by inversion Ha |].
  change (mapM f (x :: l))
    with (f x ≫= (λ b, mapM f l ≫= λ k, Ok (b :: k))).
  destruct (Hall x) as [Hx | [b Hx]]; [left | by rewrite Hx | ].
  rewrite Hx. simpl.
  apply elem_of_cons in Ha as [-> | Ha]; [congruence |].
  rewrite IH; [done | done | | done].
  intros y Hy. apply Hall. by right.
Qed.

(** ** Sums *)

Lemma fold_left_Qplus_acc (l : list Q) (a b : Q) :
  a == b → fold_left Qplus l a == fold_left Qplus l b.
Proof.
  revert a b. induction l as [|x l IH]; intros a b Hab; simpl; [done |].
  apply IH. by rewrite Hab.
Qed.

Lemma fold_left_Qplus_shift (l : list Q) (a : Q) :
  fold_left Qplus l a == a + fold_left Qplus l 0.
Proof.
  revert a. induction l as [|x l IH]; intros a; simpl; [lra |].
  rewrite (IH (a + x)), (IH (0 + x)). lra.
Qed.

Lemma Qsum_cons (x : Q) (l : list Q) : Qsum (x :: l) == x + Qsum l.
Proof.
  unfold Qsum. simpl. rewrite fold_left_Qplus_shift. lra.
Qed.

Lemma Qsum_le {A} (f h : A → Q) (l : list A) :
  (∀ a, a ∈ l → f a <= h a) → Qsum (f <$> l) <= Qsum (h <$> l).
Proof.
  induction l as [|a l IH]; intros H; [by unfold Qsum |].
  rewrite !fmap_cons, !Qsum_cons.
  apply Qplus_le_compat; [apply H; left | apply IH; intros; apply H; by right].
Qed.

Lemma value_py_add sol a b :
  value sol (py_add a b) == value sol a + value sol b.
Proof. by destruct a, b. Qed.

Lemma value_py_mul sol a b :
  value sol (py_mul a b) == value sol a * value sol b.
Proof. by destruct a, b. Qed.

Lemma value_py_sum sol (terms : list pyval) :
  value sol (py_sum terms) == Qsum (value sol <$> terms).
Proof.
  unfold py_sum, Qsum. change 0 with (value sol (PNum 0)) at 2.
  generalize (PNum 0) as acc.
  induction terms as [|x l IH]; intros acc; simpl; [done |].
  rewrite IH. apply fold_left_Qplus_acc, value_py_add.
Qed.

(** ** Components *)

Lemma Set_construct_Ok {K} `{EqDecision K} (validate : K → bool)
    (elems acc s : list K) :
  Set_construct validate elems acc = Ok s →
  (∀ k, k ∈ elems → validate k = true) ∧
  (∀ k, k ∈ s ↔ k ∈ acc ∨ k ∈ elems).
Proof.
  revert acc. induction elems as [|x l IH]; intros acc; simpl.
  - intros [= <-]. split; [by inversion 1 |].
    intros k. rewrite elem_of_nil. tauto.
  - destruct (validate x) eqn:Hx; [|done].
    intros H. apply IH in H as [Hall Hs]. split.
    + intros k [-> | Hk]%elem_of_cons; auto.
    + intros k. rewrite Hs, elem_of_cons. case_bool_decide.
      * split; [tauto |]. intros [? | [-> | ?]]; auto.
      * rewrite elem_of_app, list_elem_of_singleton. tauto.
Qed.

Lemma Set_construct_Raise {K} `{EqDecision K} (validate : K → bool)
    (elems acc : list K) k :
  k ∈ elems → validate k = false →
  Set_construct validate elems acc = Raise ValueError.
Proof.
  revert acc. induction elems as [|x l IH]; intros acc Hk Hv;
    [by inversion Hk |].
  simpl. destruct (validate x) eqn:Hx; [|done].
  apply elem_of_cons in Hk as [-> | Hk]; [congruence | by apply IH].
Qed.

Lemma Param_store_Ok index within entries acc d :
  Param_store index within entries acc = Ok d →
  (∀ k v, (k, v) ∈ entries → k ∈ index ∧ within v = true) ∧
  (∀ k, k ∉ entries.*1 → d !! k = acc !! k) ∧
  (∀ l1 k v l2, entries = l1 ++ (k, v) :: l2 → k ∉ l2.*1 →
                d !! k = Some v).
Proof.
  revert acc. induction entries as [|[k0 v0] l IH]; intros acc; simpl.
  - intros [= <-]. split; [by inversion 1 |]. split; [done |].
    intros [|??] ????; discriminate.
  - case_bool_decide as Hk0; [|done].
    destruct (within v0) eqn:Hv0; [|done].
    intros H. apply IH in H as (Hall & Hout & Hlast).
    split; [|split].
    + intros k v [[= -> ->] | Hkv]%elem_of_cons; auto.
    + intros k Hk. apply not_elem_of_cons in Hk as [Hne Hk].
      rewrite (Hout k Hk). by apply lookup_insert_ne.
    + intros [|[k1 v1] l1] k v l2 Heq Hk; simplify_eq/=.
      * rewrite (Hout k Hk). apply lookup_insert_eq.
      * by eapply Hlast.
Qed.

Lemma define_components_Ok mod_ data m :
  define_components mod_ data = Ok m →
  ∃ keys rate cost dc cr,
    Set_construct (PERIOD_Curtailment_MAX_validate mod_)
      (d_PERIOD_Curtailment_MAX data) [] = Ok keys ∧
    Param_construct keys NonNegativeReals 1
      (d_max_curtailment_Rate data) = Ok rate ∧
    Expression_construct (Curtailment_Cost_rule mod_) keys = Ok cost ∧
    Constraint_construct (Dispatch_Curtailment_rule mod_) (GEN_TPS mod_)
      = Ok dc ∧
    Constraint_construct (Curtailment_Rate_rule mod_ rate) keys = Ok cr ∧
    m = {| base := mod_;
           PERIOD_Curtailment_MAX := keys;
           max_curtailment_Rate := rate;
           Curtailment_index := GEN_TPS mod_;
           Curtailment_within := NonNegativeReals;
           Curtailment_Cost := cost;
           Dispatch_Curtailment := dc;
           Curtailment_Rate := cr |}.
Proof.
  unfold define_components. intros H.
  apply bind_Ok in H as (keys & Hkeys & H).
  apply bind_Ok in H as (rate & Hrate & H).
  apply bind_Ok in H as (cost & Hcost & H).
  apply bind_Ok in H as (dc & Hdc & H).
  apply bind_Ok in H as (cr & Hcr & [= <-]).
  by exists keys, rate, cost, dc, cr.
Qed.

Lemma Constraint_construct_elem {K} (rule : K → result truth)
    (index : list K) cs k :
  Constraint_construct rule index = Ok cs → k ∈ index →
  ∃ c, rule k = Ok (PRel c) ∧ (k, c) ∈ cs.
Proof.
  intros H Hk. destruct (mapM_Ok_elem _ _ _ _ H Hk) as (kc & Hr & Hin).
  apply bind_Ok in Hr as ([b|c] & Hrule & Hr); [done |].
  injection Hr as <-. eauto.
Qed.

Lemma Constraint_construct_keys {K} (rule : K → result truth)
    (index : list K) cs :
  Constraint_construct rule index = Ok cs → cs.*1 = index.
Proof.
  unfold Constraint_construct. rewrite mapM_Ok.
  induction 1 as [|k kc l cs Hk _ IH]; [done |].
  rewrite fmap_cons, IH. f_equal.
  apply bind_Ok in Hk as ([b|c] & _ & Hk); [done |]. by injection Hk as <-.
Qed.

Lemma Curtailment_getitem_Ok mod_ g t v :
  Curtailment_getitem mod_ g t = Ok v ↔
  (g, t) ∈ GEN_TPS mod_ ∧ v = PExpr (ELeaf (Curtailment g t)).
Proof.
  unfold Curtailment_getitem, Var_getitem. case_bool_decide; split.
  - by intros [= <-].
  - by intros [_ ->].
  - done.
  - tauto.
Qed.

Lemma Dispatch_Curtailment_rule_Ok mod_ g t :
  (g, t) ∈ GEN_TPS mod_ →
  Dispatch_Curtailment_rule mod_ (g, t) =
    Ok (PRel {| c_lhs := EAdd (ELeaf (DispatchGen g t))
                              (ELeaf (Curtailment g t));
                c_rel := REq;
                c_rhs := ELeaf (DispatchUpperLimit g t) |}).
Proof.
  intros H. unfold Dispatch_Curtailment_rule.
  assert (Curtailment_getitem mod_ g t
          = Ok (PExpr (ELeaf (Curtailment g t)))) as ->
    by by apply Curtailment_getitem_Ok.
  done.
Qed.

(** Every index of GEN_TPS gets its equality, whatever the data. *)
Lemma Dispatch_Curtailment_total mod_ :
  Constraint_construct (Dispatch_Curtailment_rule mod_) (GEN_TPS mod_)
  = Ok ((λ gt, (gt, {| c_lhs := EAdd (ELeaf (DispatchGen gt.1 gt.2))
                                     (ELeaf (Curtailment gt.1 gt.2));
                       c_rel := REq;
                       c_rhs := ELeaf (DispatchUpperLimit gt.1 gt.2) |}))
          <$> GEN_TPS mod_).
Proof.
  apply mapM_Ok. apply Forall2_fmap_r, Forall_Forall2_diag, Forall_forall.
  intros [g t] Hgt. by rewrite Dispatch_Curtailment_rule_Ok.
Qed.

Lemma feasible_equality mod_ data m g t sol :
  define_components mod_ data = Ok m →
  (g, t) ∈ GEN_TPS mod_ →
  feasible m sol →
  ((g, t), {| c_lhs := EAdd (ELeaf (DispatchGen g t))
                            (ELeaf (Curtailment g t));
              c_rel := REq;
              c_rhs := ELeaf (DispatchUpperLimit g t) |})
    ∈ Dispatch_Curtailment m ∧
  sol (DispatchGen g t) + sol (Curtailment g t)
  == sol (DispatchUpperLimit g t) ∧
  0 <= sol (Curtailment g t).
Proof.
  intros Hm Hgt (Hdom & Hsat & _).
  apply define_components_Ok in Hm
    as (keys & rate & cost & dc & cr & _ & _ & _ & Hdc & _ & ->).
  destruct (Constraint_construct_elem _ _ _ _ Hdc Hgt) as (c' & Hc' & Hin).
  rewrite Dispatch_Curtailment_rule_Ok in Hc' by done.
  injection Hc' as <-.
  split; [done |]. split; [apply (Hsat _ _ Hin) |].
  apply Qle_bool_iff, (Hdom g t Hgt).
Qed.

(** C1. For every (project, timepoint) pair of GEN_TPS the rule of
    Dispatch_Curtailment yields the equality
    DispatchGen[g, t] + Curtailment[g, t] == DispatchUpperLimit[g, t]; the
    model built by define_components holds that constraint at (g, t), and
    in every feasible solution dispatched plus curtailed power equals the
    dispatch ceiling of the pair. *)
Theorem Dispatch_Curtailment_equality mod_ data m g t :
  define_components mod_ data = Ok m →
  (g, t) ∈ GEN_TPS mod_ →
  let c := {| c_lhs := EAdd (ELeaf (DispatchGen g t))
                            (ELeaf (Curtailment g t));
              c_rel := REq;
              c_rhs := ELeaf (DispatchUpperLimit g t) |} in
  Dispatch_Curtailment_rule mod_ (g, t) = Ok (PRel c) ∧
  ((g, t), c) ∈ Dispatch_Curtailment m ∧
  ∀ sol, feasible m sol →
    sol (DispatchGen g t) + sol (Curtailment g t)
    == sol (DispatchUpperLimit g t).
Proof.
  intros Hm Hgt c.
  split; [by apply Dispatch_Curtailment_rule_Ok |].
  pose proof (define_components_Ok _ _ _ Hm)
    as (keys & rate & cost & dc & cr & _ & _ & _ & Hdc & _ & Heq).
  split.
  - destruct (Constraint_construct_elem _ _ _ _ Hdc Hgt) as (c' & Hc' & Hin).
    rewrite Dispatch_Curtailment_rule_Ok in Hc' by done.
    injection Hc' as <-. by rewrite Heq.
  - intros sol Hsol. by eapply feasible_equality.
Qed.

Lemma example_built_Ok :
  define_components example_model example_data = Ok example_built.
Proof. vm_compute. reflexivity. Qed.

Lemma example_solution_feasible : feasible example_built example_solution.
Proof.
  split; [|split].
  - intros g t _. destruct (example_solution (Curtailment g t)) eqn:E.
    by injection E as <- <-.
  - intros gt c H. simpl in H.
    repeat (apply elem_of_cons in H as [[= -> ->] | H]; [by vm_compute |]).
    by inversion H.
  - intros k c H. simpl in H.
    apply elem_of_cons in H as [[= -> ->] | H]; [| by inversion H].
    unfold satisfies. simpl. lra.
Qed.

Lemma Dispatch_Curtailment_equality_witness :
  define_components example_model example_data = Ok example_built ∧
  ("G1"%string, 1%Z) ∈ GEN_TPS example_model ∧
  Dispatch_Curtailment_rule example_model ("G1"%string, 1%Z)
    = Ok (PRel (example_equality "G1").2) ∧
  example_equality "G1" ∈ Dispatch_Curtailment example_built ∧
  ∀ sol, feasible example_built sol →
    sol (DispatchGen "G1" 1) + sol (Curtailment "G1" 1)
    == sol (DispatchUpperLimit "G1" 1).
Proof.
  assert (define_components example_model example_data = Ok example_built)
    as Hm by (vm_compute; reflexivity).
  assert (("G1"%string, 1%Z) ∈ GEN_TPS example_model)
    as Hgt by (apply (bool_decide_unpack _); vm_compute; exact I).
  split; [exact Hm |]. split; [exact Hgt |].
  exact (Dispatch_Curtailment_equality example_model example_data
           example_built "G1" 1%Z Hm Hgt).
Defined.

(** C9. In every feasible solution of the model built by define_components
    and for every pair of GEN_TPS, DispatchGen[g, t] and Curtailment[g, t]
    are both at most DispatchUpperLimit[g, t], given that DispatchGen[g, t]
    is non-negative: Curtailment is declared non-negative and the
    Dispatch_Curtailment equality ties the three together. *)
Theorem dispatch_and_curtailment_below_ceiling mod_ data m sol g t :
  define_components mod_ data = Ok m →
  feasible m sol →
  (g, t) ∈ GEN_TPS mod_ →
  0 <= sol (DispatchGen g t) →
  sol (DispatchGen g t) <= sol (DispatchUpperLimit g t) ∧
  sol (Curtailment g t) <= sol (DispatchUpperLimit g t).
Proof.
  intros Hm Hsol Hgt Hgen.
  destruct (feasible_equality _ _ _ _ _ _ Hm Hgt Hsol) as (_ & Heq & Hcur).
  split; lra.
Qed.

Lemma dispatch_and_curtailment_below_ceiling_witness :
  define_components example_model example_data = Ok example_built ∧
  feasible example_built example_solution ∧
  ("G1"%string, 1%Z) ∈ GEN_TPS example_model ∧
  0 <= example_solution (DispatchGen "G1" 1) ∧
  example_solution (DispatchGen "G1" 1)
    <= example_solution (DispatchUpperLimit "G1" 1) ∧
  example_solution (Curtailment "G1" 1)
    <= example_solution (DispatchUpperLimit "G1" 1).
Proof.
  assert (define_components example_model example_data = Ok example_built)
    as Hm by (vm_compute; reflexivity).
  assert (("G1"%string, 1%Z) ∈ GEN_TPS example_model)
    as Hgt by (apply (bool_decide_unpack _); vm_compute; exact I).
  assert (0 <= example_solution (DispatchGen "G1" 1))
    as Hgen by (vm_compute; discriminate).
  split; [exact Hm |]. split; [exact example_solution_feasible |].
  split; [exact Hgt |]. split; [exact Hgen |].
  exact (dispatch_and_curtailment_below_ceiling example_model example_data
           example_built example_solution "G1" 1%Z Hm
           example_solution_feasible Hgt Hgen).
Defined.

Lemma PERIOD_Curtailment_MAX_validate_true mod_ p e :
  PERIOD_Curtailment_MAX_validate mod_ (p, e) = true ↔
  p ∈ PERIODS mod_ ∧ e ∈ ENERGY_SOURCES mod_.
Proof.
  unfold PERIOD_Curtailment_MAX_validate.
  by rewrite andb_true_iff, !bool_decide_eq_true.
Qed.

(** The keys of the built model are the keys the data portal offered. *)
Lemma PERIOD_Curtailment_MAX_keys mod_ data m k :
  define_components mod_ data = Ok m →
  k ∈ PERIOD_Curtailment_MAX m ↔ k ∈ d_PERIOD_Curtailment_MAX data.
Proof.
  intros Hm. apply define_components_Ok in Hm
    as (keys & rate & cost & dc & cr & Hkeys & _ & _ & _ & _ & ->).
  apply Set_construct_Ok in Hkeys as [_ Hs]. simpl.
  rewrite Hs, elem_of_nil. tauto.
Qed.

(** C8. The key set PERIOD_Curtailment_MAX is validated when it is built: a
    (period, energy source) key offered to it whose period is not in PERIODS
    or whose energy source is not in ENERGY_SOURCES makes the build fail
    with a ValueError, and every key of a model that was built was offered
    and names a declared period and a declared energy source. *)
Theorem PERIOD_Curtailment_MAX_validated mod_ data :
  (∀ p e, (p, e) ∈ d_PERIOD_Curtailment_MAX data →
          p ∉ PERIODS mod_ ∨ e ∉ ENERGY_SOURCES mod_ →
          define_components mod_ data = Raise ValueError) ∧
  (∀ m p e, define_components mod_ data = Ok m →
            (p, e) ∈ PERIOD_Curtailment_MAX m →
            (p, e) ∈ d_PERIOD_Curtailment_MAX data ∧
            p ∈ PERIODS mod_ ∧ e ∈ ENERGY_SOURCES mod_).
Proof.
  split.
  - intros p e Hin Hbad. unfold define_components.
    rewrite (Set_construct_Raise _ _ _ (p, e)); [done | done |].
    apply not_true_is_false.
    rewrite PERIOD_Curtailment_MAX_validate_true. tauto.
  - intros m p e Hm Hin.
    apply (PERIOD_Curtailment_MAX_keys _ _ _ _ Hm) in Hin.
    split; [done |].
    apply define_components_Ok in Hm
      as (keys & rate & cost & dc & cr & Hkeys & _).
    apply Set_construct_Ok in Hkeys as [Hall _].
    by apply PERIOD_Curtailment_MAX_validate_true, Hall.
Qed.

Lemma PERIOD_Curtailment_MAX_validated_witness :
  ((2040%Z, "Solar"%string) ∈ d_PERIOD_Curtailment_MAX undeclared ∧
   (2040%Z ∉ PERIODS example_model) ∧
   define_components example_model undeclared = Raise ValueError) ∧
  (define_components example_model example_data = Ok example_built ∧
   (2030%Z, "Solar"%string) ∈ PERIOD_Curtailment_MAX example_built ∧
   (2030%Z, "Solar"%string) ∈ d_PERIOD_Curtailment_MAX example_data ∧
   2030%Z ∈ PERIODS example_model ∧
   "Solar"%string ∈ ENERGY_SOURCES example_model).
Proof.
  split.
  - assert ((2040%Z, "Solar"%string) ∈ d_PERIOD_Curtailment_MAX undeclared)
      as Hin by (apply (bool_decide_unpack _); vm_compute; exact I).
    assert (2040%Z ∉ PERIODS example_model)
      as Hbad by (apply (bool_decide_unpack _); vm_compute; exact I).
    split; [exact Hin |]. split; [exact Hbad |].
    exact (proj1 (PERIOD_Curtailment_MAX_validated example_model undeclared)
             2040%Z "Solar"%string Hin (or_introl Hbad)).
  - assert (define_components example_model example_data = Ok example_built)
      as Hm by (vm_compute; reflexivity).
    assert ((2030%Z, "Solar"%string) ∈ PERIOD_Curtailment_MAX example_built)
      as Hin by (apply (bool_decide_unpack _); vm_compute; exact I).
    split; [exact Hm |]. split; [exact Hin |].
    exact (proj2 (PERIOD_Curtailment_MAX_validated example_model
                    example_data)
             example_built 2030%Z "Solar"%string Hm Hin).
Defined.

(** ** When the build succeeds *)

Lemma mapM_total {A B} (f : A → result B) (l : list A) :
  (∀ a, a ∈ l → ∃ b, f a = Ok b) → ∃ bs, mapM f l = Ok bs.
Proof.
  induction l as [|a l IH]; intros H; [by exists [] |].
  destruct (H a) as [b Hb]; [left |].
  destruct IH as [bs Hbs]; [intros; apply H; by right |].
  exists (b :: bs). apply mapM_Ok. constructor; [done | by apply mapM_Ok].
Qed.

Lemma Set_construct_total {K} `{EqDecision K} (validate : K → bool)
    (elems acc : list K) :
  (∀ k, k ∈ elems → validate k = true) →
  ∃ s, Set_construct validate elems acc = Ok s.
Proof.
  revert acc. induction elems as [|x l IH]; intros acc H; simpl; [eauto |].
  rewrite H by left. apply IH. intros; apply H; by right.
Qed.

Lemma Param_store_total index within entries acc :
  (∀ k v, (k, v) ∈ entries → k ∈ index ∧ within v = true) →
  ∃ d, Param_store index within entries acc = Ok d.
Proof.
  revert acc. induction entries as [|[k v] l IH]; intros acc H; simpl;
    [eauto |].
  destruct (H k v) as [Hk Hv]; [left |].
  rewrite bool_decide_eq_true_2, Hv by done.
  apply IH. intros; apply H; by right.
Qed.

Lemma Param_getitem_index (P : Param) k :
  k ∈ p_index P → ∃ r, Param_getitem P k = Ok r.
Proof.
  intros Hk. unfold Param_getitem. destruct (p_data P !! k); [eauto |].
  rewrite bool_decide_eq_true_2 by done. eauto.
Qed.

Lemma py_sum_symbolic (terms : list pyval) (acc : pyval) :
  terms ≠ [] → Forall (λ v, ∃ x, v = PExpr x) terms →
  ∃ x, fold_left py_add terms acc = PExpr x.
Proof.
  intros Hne Hall. revert acc.
  induction Hall as [|v l [x ->] Hl IH]; intros acc; [done |].
  simpl. destruct l as [|v' l'].
  - destruct acc; simpl; eauto.
  - apply IH. done.
Qed.

Lemma Curtailment_Rate_rule_total mod_ rate p e :
  (p, e) ∈ p_index rate →
  pairs_of_source mod_ p e ≠ [] →
  (∀ gt, gt ∈ pairs_of_source mod_ p e → gt ∈ GEN_TPS mod_) →
  ∃ c, Curtailment_Rate_rule mod_ rate (p, e) = Ok (PRel c).
Proof.
  intros Hk Hne Hsub. unfold Curtailment_Rate_rule.
  pose (term := λ gt : gen * timepoint,
          py_mul (PExpr (ELeaf (Curtailment gt.1 gt.2)))
                 (PNum (tp_weight mod_ gt.2))).
  assert (mapM (λ gt, c ← Curtailment_getitem mod_ gt.1 gt.2;
                      Ok (py_mul c (PNum (tp_weight mod_ gt.2))))
               (pairs_of_source mod_ p e)
          = Ok (term <$> pairs_of_source mod_ p e)) as ->.
  { apply mapM_Ok, Forall2_fmap_r, Forall_Forall2_diag, Forall_forall.
    intros [g t] Hgt. simpl.
    assert (Curtailment_getitem mod_ g t
            = Ok (PExpr (ELeaf (Curtailment g t)))) as ->; [|done].
    apply Curtailment_getitem_Ok. split; [|done]. by apply Hsub. }
  destruct (Param_getitem_index rate _ Hk) as [r ->]. simpl.
  destruct (py_sum_symbolic (term <$> pairs_of_source mod_ p e) (PNum 0))
    as [x Hx].
  - by destruct (pairs_of_source mod_ p e).
  - apply Forall_fmap, Forall_forall. intros gt _. simpl. eauto.
  - unfold py_sum. rewrite Hx. simpl. eauto.
Qed.

(** The build succeeds on data whose keys name declared periods and energy
    sources, whose values are non-negative and sit at offered keys, and
    where each key has at least one (project, timepoint) pair, all of its
    pairs being in GEN_TPS. *)
Lemma define_components_total mod_ data :
  (∀ p e, (p, e) ∈ d_PERIOD_Curtailment_MAX data →
          p ∈ PERIODS mod_ ∧ e ∈ ENERGY_SOURCES mod_) →
  (∀ k v, (k, v) ∈ d_max_curtailment_Rate data →
          k ∈ d_PERIOD_Curtailment_MAX data ∧ 0 <= v) →
  (∀ p e, (p, e) ∈ d_PERIOD_Curtailment_MAX data →
          pairs_of_source mod_ p e ≠ [] ∧
          ∀ gt, gt ∈ pairs_of_source mod_ p e → gt ∈ GEN_TPS mod_) →
  ∃ m, define_components mod_ data = Ok m.
Proof.
  intros Hkeys Hvals Hpairs. unfold define_components.
  destruct (Set_construct_total (PERIOD_Curtailment_MAX_validate mod_)
              (d_PERIOD_Curtailment_MAX data) []) as [keys Hs].
  { intros [p e] Hk. by apply PERIOD_Curtailment_MAX_validate_true, Hkeys. }
  rewrite Hs. simpl.
  apply Set_construct_Ok in Hs as [_ Hs].
  assert (∀ k, k ∈ keys → k ∈ d_PERIOD_Curtailment_MAX data) as Hin.
  { intros k Hk. apply Hs in Hk as [Hk | Hk]; [by inversion Hk | done]. }
  destruct (Param_store_total keys NonNegativeReals
              (d_max_curtailment_Rate data) ∅) as [d Hd].
  { intros k v Hkv. destruct (Hvals k v Hkv) as [Hk Hv]. split.
    - apply Hs. by right.
    - by apply Qle_bool_iff. }
  unfold Param_construct. rewrite Hd. simpl.
  destruct (mapM_total (λ k, v ← Curtailment_Cost_rule mod_ k;
                             Ok (k, to_expr v)) keys) as [cost Hcost].
  { intros [p e] Hk. unfold Curtailment_Cost_rule.
    destruct (mapM_total (λ gt, Curtailment_getitem mod_ gt.1 gt.2)
                (pairs_of_source mod_ p e)) as [ts Hts].
    - intros [g t] Hgt. eexists. apply Curtailment_getitem_Ok.
      split; [|done]. by apply (Hpairs p e); [apply Hin |].
    - rewrite Hts. simpl. eauto. }
  unfold Expression_construct. rewrite Hcost. simpl.
  rewrite Dispatch_Curtailment_total. simpl.
  destruct (mapM_total
    (λ k, r ← Curtailment_Rate_rule mod_
                {| p_index := keys; p_data := d; p_default := 1 |} k;
          match r with
          | PRel c => Ok (k, c)
          | PBool _ => Raise ValueError
          end) keys) as [cr Hcr].
  { intros [p e] Hk.
    destruct (Curtailment_Rate_rule_total mod_
                {| p_index := keys; p_data := d; p_default := 1 |} p e)
      as [c Hc]; [done | by apply Hpairs, Hin | by apply Hpairs, Hin |].
    rewrite Hc. simpl. eauto. }
  unfold Constraint_construct at 1. rewrite Hcr. simpl. eauto.
Qed.

(** ** The curtailment cap *)

Lemma elem_of_pairs_of_source mod_ p e g t :
  (g, t) ∈ pairs_of_source mod_ p e ↔
  g ∈ GENERATION_PROJECTS mod_ ∧ t ∈ TPS_IN_PERIOD mod_ p ∧
  gen_energy_source mod_ g = e.
Proof.
  unfold pairs_of_source. rewrite list_elem_of_filter, list_elem_of_bind.
  simpl. split.
  - intros (He & g' & Hin & Hg').
    apply list_elem_of_bind in Hin as (t' & Hin & Ht').
    apply list_elem_of_singleton in Hin as [= -> ->]. done.
  - intros (Hg & Ht & He). split; [done |]. exists g. split; [|done].
    apply list_elem_of_bind. exists t. split; [|done].
    by apply list_elem_of_singleton.
Qed.

Lemma py_le_PRel a b c :
  py_le a b = PRel c →
  c_lhs c = to_expr a ∧ c_rel c = RLe ∧ c_rhs c = to_expr b.
Proof. destruct a, b; simpl; intros [= <-]; done. Qed.

Lemma mapM_Ok_fmap {A B} (f : A → result B) (h : A → B) l bs :
  mapM f l = Ok bs → (∀ a b, a ∈ l → f a = Ok b → b = h a) → bs = h <$> l.
Proof.
  rewrite mapM_Ok. induction 1 as [|a b l bs Hab _ IH]; intros Hh; [done |].
  rewrite fmap_cons. f_equal.
  - apply Hh; [left | done].
  - apply IH. intros ????. apply Hh; [by right | done].
Qed.

Lemma Curtailment_Rate_rule_Ok mod_ rate p e c :
  Curtailment_Rate_rule mod_ rate (p, e) = Ok (PRel c) →
  ∃ r, Param_getitem rate (p, e) = Ok r ∧ c_rel c = RLe ∧
    ∀ sol,
      evaluate sol (c_lhs c)
      == weighted_total mod_ p e Curtailment sol ∧
      evaluate sol (c_rhs c)
      == r * weighted_total mod_ p e DispatchUpperLimit sol.
Proof.
  unfold Curtailment_Rate_rule. intros H.
  apply bind_Ok in H as (lhs & Hlhs & H).
  apply bind_Ok in H as (r & Hr & H).
  assert (∀ x y : truth, Ok x = Ok y → x = y) as Ok_inj by congruence.
  apply Ok_inj, py_le_PRel in H as (Hl & Hrel & Hrhs).
  exists r. split; [done |]. split; [done |].
  intros sol. rewrite Hl, Hrhs.
  apply (mapM_Ok_fmap _
    (λ gt, py_mul (PExpr (ELeaf (Curtailment gt.1 gt.2)))
                  (PNum (tp_weight mod_ gt.2)))) in Hlhs as ->.
  - unfold weighted_total.
    split; change (evaluate sol (to_expr ?v)) with (value sol v).
    + by rewrite value_py_sum, <- list_fmap_compose.
    + rewrite value_py_mul, value_py_sum.
      change (map ?f ?l) with (f <$> l).
      by rewrite <- list_fmap_compose.
  - intros [g t] v _ Hv. simpl in Hv.
    apply bind_Ok in Hv as (x & Hx & [= <-]).
    by apply Curtailment_getitem_Ok in Hx as [_ ->].
Qed.

(** X18. For every key (p, e) of PERIOD_Curtailment_MAX a model that
    define_components builds holds an inequality Curtailment_Rate[p, e]: the
    sum of Curtailment[g, t] * tp_weight[t] over the pairs (g, t) with g a
    generation project whose energy source is e and t a timepoint of period
    p is at most max_curtailment_Rate[p, e] times the sum of
    DispatchUpperLimit[g, t] * tp_weight[t] over the same pairs; every
    feasible solution satisfies that bound.  The rule yields such an
    inequality whenever the key has a pair and all its pairs are in
    GEN_TPS. *)
Theorem Curtailment_Rate_bound mod_ data m p e :
  define_components mod_ data = Ok m →
  (p, e) ∈ PERIOD_Curtailment_MAX m →
  (pairs_of_source mod_ p e ≠ [] →
   (∀ gt, gt ∈ pairs_of_source mod_ p e → gt ∈ GEN_TPS mod_) →
   ∀ rate, (p, e) ∈ p_index rate →
     ∃ c, Curtailment_Rate_rule mod_ rate (p, e) = Ok (PRel c)) ∧
  (∀ g t, (g, t) ∈ pairs_of_source mod_ p e ↔
          g ∈ GENERATION_PROJECTS mod_ ∧ t ∈ TPS_IN_PERIOD mod_ p ∧
          gen_energy_source mod_ g = e) ∧
  ∃ r c,
    Param_getitem (max_curtailment_Rate m) (p, e) = Ok r ∧
    ((p, e), c) ∈ Curtailment_Rate m ∧
    c_rel c = RLe ∧
    (∀ sol,
       evaluate sol (c_lhs c)
       == weighted_total mod_ p e Curtailment sol ∧
       evaluate sol (c_rhs c)
       == r * weighted_total mod_ p e DispatchUpperLimit sol) ∧
    (∀ sol, feasible m sol →
       weighted_total mod_ p e Curtailment sol
       <= r * weighted_total mod_ p e DispatchUpperLimit sol).
Proof.
  intros Hm Hk.
  split; [intros ?? rate ?; by apply Curtailment_Rate_rule_total |].
  split; [intros g t; apply elem_of_pairs_of_source |].
  apply define_components_Ok in Hm
    as (keys & rate & cost & dc & cr & _ & _ & _ & _ & Hcr & ->).
  simpl in *.
  destruct (Constraint_construct_elem _ _ _ _ Hcr Hk) as (c & Hc & Hin).
  apply Curtailment_Rate_rule_Ok in Hc as (r & Hr & Hrel & Hval).
  exists r, c. repeat split; try done; try apply Hval.
  intros sol (_ & _ & Hsat). specialize (Hsat _ _ Hin).
  unfold satisfies in Hsat. rewrite Hrel in Hsat.
  destruct (Hval sol) as [<- <-]. done.
Qed.

Lemma Curtailment_Rate_bound_witness :
  define_components example_model example_data = Ok example_built ∧
  (2030%Z, "Solar"%string) ∈ PERIOD_Curtailment_MAX example_built ∧
  ∃ r c,
    Param_getitem (max_curtailment_Rate example_built)
      (2030%Z, "Solar"%string) = Ok r ∧
    ((2030%Z, "Solar"%string), c) ∈ Curtailment_Rate example_built ∧
    c_rel c = RLe ∧
    (∀ sol,
       evaluate sol (c_lhs c)
       == weighted_total example_model 2030 "Solar" Curtailment sol ∧
       evaluate sol (c_rhs c)
       == r * weighted_total example_model 2030 "Solar"
                DispatchUpperLimit sol) ∧
    (∀ sol, feasible example_built sol →
       weighted_total example_model 2030 "Solar" Curtailment sol
       <= r * weighted_total example_model 2030 "Solar"
                DispatchUpperLimit sol).
Proof.
  assert (define_components example_model example_data = Ok example_built)
    as Hm by (vm_compute; reflexivity).
  assert ((2030%Z, "Solar"%string) ∈ PERIOD_Curtailment_MAX example_built)
    as Hk by (apply (bool_decide_unpack _); vm_compute; exact I).
  split; [exact Hm |]. split; [exact Hk |].
  exact (proj2 (proj2 (Curtailment_Rate_bound example_model example_data
                         example_built 2030%Z "Solar"%string Hm Hk))).
Defined.

(** When the build of Curtailment_Rate fails: a project of the energy
    source that has no Curtailment variable at a timepoint of the period,
    and a key that no (project, timepoint) pair matches, for which both
    sums are the number 0 and the comparison is a Python [bool]. *)
Lemma Curtailment_Rate_rule_KeyError mod_ rate p e g t :
  (g, t) ∈ pairs_of_source mod_ p e → (g, t) ∉ GEN_TPS mod_ →
  Curtailment_Rate_rule mod_ rate (p, e) = Raise KeyError.
Proof.
  intros Hin Hout. unfold Curtailment_Rate_rule.
  rewrite (mapM_Raise _ _ (g, t) KeyError); [done | done | |].
  - intros [g' t'] _. simpl. unfold Curtailment_getitem, Var_getitem.
    case_bool_decide; simpl; eauto.
  - simpl. unfold Curtailment_getitem, Var_getitem.
    by rewrite bool_decide_eq_false_2.
Qed.

Lemma Curtailment_Rate_rule_trivial mod_ rate p e r :
  pairs_of_source mod_ p e = [] → Param_getitem rate (p, e) = Ok r →
  Curtailment_Rate_rule mod_ rate (p, e) = Ok (PBool true).
Proof.
  intros Hnil Hr. unfold Curtailment_Rate_rule. rewrite Hnil. simpl.
  rewrite Hr. simpl. do 2 f_equal.
  apply Qle_bool_iff. unfold Qmult, Qle. simpl. lia.
Qed.

(** C2. The code does not create Curtailment_Rate for every key.  In the
    small system with the second solar project outside GEN_TPS, the key
    (2030, Solar) is offered and declared, the pair (G2, 1) is one of its
    pairs, and the rule of Curtailment_Rate, like the whole build, raises a
    KeyError at it: the sums index Curtailment over GENERATION_PROJECTS x
    TPS_IN_PERIOD[p], and Curtailment is declared over GEN_TPS.  For the key
    (2030, Wind), which no pair matches, the build raises a ValueError. *)
Lemma Curtailment_Rate_not_created :
  ((2030%Z, "Solar"%string) ∈ d_PERIOD_Curtailment_MAX example_data ∧
   2030%Z ∈ PERIODS stranded_model ∧
   "Solar"%string ∈ ENERGY_SOURCES stranded_model ∧
   "G2"%string ∈ GENERATION_PROJECTS stranded_model ∧
   gen_energy_source stranded_model "G2" = "Solar"%string ∧
   1%Z ∈ TPS_IN_PERIOD stranded_model 2030 ∧
   (("G2"%string, 1%Z) ∉ GEN_TPS stranded_model) ∧
   (∀ rate, Curtailment_Rate_rule stranded_model rate (2030%Z, "Solar"%string)
            = Raise KeyError) ∧
   define_components stranded_model example_data = Raise KeyError) ∧
  ((2030%Z, "Wind"%string) ∈ d_PERIOD_Curtailment_MAX wind_data ∧
   2030%Z ∈ PERIODS example_model ∧
   "Wind"%string ∈ ENERGY_SOURCES example_model ∧
   pairs_of_source example_model 2030 "Wind" = [] ∧
   define_components example_model wind_data = Raise ValueError).
Proof.
  split.
  - repeat split;
      try (apply (bool_decide_unpack _); vm_compute; exact I);
      vm_compute; reflexivity.
  - repeat split;
      try (apply (bool_decide_unpack _); vm_compute; exact I);
      vm_compute; reflexivity.
Qed.

(** ** The input file *)

Lemma select_columns_three tab a b c row cells :
  select_columns tab [a; b; c] row = Ok cells →
  ∃ x y z, cells = [x; y; z] ∧ column tab a row = Some x ∧
           column tab b row = Some y ∧ column tab c row = Some z.
Proof.
  unfold select_columns. rewrite mapM_Ok. intros H.
  inversion H as [|? x ? l1 Hx H1]; subst.
  inversion H1 as [|? y ? l2 Hy H2]; subst.
  inversion H2 as [|? z ? l3 Hz H3]; subst.
  inversion H3; subst.
  exists x, y, z. split; [done |].
  destruct (column tab a row), (column tab b row), (column tab c row);
    by simplify_eq.
Qed.

Lemma load_aug_Ok fs filename data :
  load_aug fs filename
    ["Period"; "Energy_Source"; "Max_Curtailment_Rate"]%string = Ok data →
  ∃ tab, fs filename = Some tab ∧
    d_PERIOD_Curtailment_MAX data = (d_max_curtailment_Rate data).*1 ∧
    Forall2 (row_entry tab) (rows tab) (d_max_curtailment_Rate data).
Proof.
  unfold load_aug. destruct (fs filename) as [tab|]; [|done].
  intros H. apply bind_Ok in H as (entries & Hentries & [= <-]).
  exists tab. split; [done |]. split; [done |]. simpl.
  apply mapM_Ok in Hentries.
  eapply Forall2_impl; [exact Hentries |].
  intros row entry Hrow. apply bind_Ok in Hrow as (cells & Hcells & Hdec).
  apply select_columns_three in Hcells
    as (x & y & z & -> & Hx & Hy & Hz).
  unfold row_entry. rewrite Hx, Hy, Hz.
  destruct x as [p| |]; try done.
  destruct y as [| |e]; try done.
  destruct z as [r|r|]; simplify_eq/=.
  - split; [done |]. split; [done |]. right. by exists r.
  - split; [done |]. split; [done |]. by left.
Qed.

(** C4. load_inputs reads one file, curtailment_rate_max.tab in the inputs
    directory: its result depends on no other path, and on success the key
    set and the parameter are filled from the columns Period, Energy_Source
    and Max_Curtailment_Rate of its rows.  When the file is absent the load
    raises an IOError, nothing is substituted, and the build that follows
    the load yields no model, hence no constraint. *)
Theorem load_inputs_mandatory_file (fs : FileSystem)
    (inputs_dir : string) :
  let path := path_join inputs_dir "curtailment_rate_max.tab" in
  (fs path = None →
   load_inputs fs inputs_dir = Raise IOError ∧
   ∀ mod_, build fs mod_ inputs_dir = Raise IOError) ∧
  (∀ fs' : FileSystem, fs' path = fs path →
   load_inputs fs' inputs_dir = load_inputs fs inputs_dir) ∧
  (∀ data, load_inputs fs inputs_dir = Ok data →
   ∃ tab, fs path = Some tab ∧
     d_PERIOD_Curtailment_MAX data = (d_max_curtailment_Rate data).*1 ∧
     Forall2 (row_entry tab) (rows tab) (d_max_curtailment_Rate data)).
Proof.
  intros path. split; [|split].
  - intros Hnone.
    assert (load_inputs fs inputs_dir = Raise IOError) as Hload.
    { unfold load_inputs, load_aug. fold path. by rewrite Hnone. }
    split; [done |]. intros mod_. unfold build. by rewrite Hload.
  - intros fs' Heq. unfold load_inputs, load_aug. fold path.
    by rewrite Heq.
  - intros data Hdata. by apply load_aug_Ok.
Qed.

Lemma load_inputs_mandatory_file_witness :
  (let nothing : FileSystem := λ _, None in
   nothing (path_join "inputs" "curtailment_rate_max.tab") = None ∧
   load_inputs nothing "inputs" = Raise IOError ∧
   ∀ mod_, build nothing mod_ "inputs" = Raise IOError) ∧
  (load_inputs example_files "inputs" = Ok example_data ∧
   ∃ tab,
     example_files (path_join "inputs" "curtailment_rate_max.tab")
       = Some tab ∧
     d_PERIOD_Curtailment_MAX example_data
       = (d_max_curtailment_Rate example_data).*1 ∧
     Forall2 (row_entry tab) (rows tab)
       (d_max_curtailment_Rate example_data)).
Proof.
  split.
  - intros nothing.
    assert (nothing (path_join "inputs" "curtailment_rate_max.tab") = None)
      as Hnone by reflexivity.
    split; [exact Hnone |].
    exact (proj1 (load_inputs_mandatory_file nothing "inputs") Hnone).
  - assert (load_inputs example_files "inputs" = Ok example_data)
      as Hdata by (vm_compute; reflexivity).
    split; [exact Hdata |].
    exact (proj2 (proj2 (load_inputs_mandatory_file example_files "inputs"))
             example_data Hdata).
Defined.

(** ** Reading the parameter back *)

Lemma max_curtailment_Rate_data mod_ data m :
  define_components mod_ data = Ok m →
  p_index (max_curtailment_Rate m) = PERIOD_Curtailment_MAX m ∧
  p_default (max_curtailment_Rate m) = 1 ∧
  (∀ k, k ∉ (d_max_curtailment_Rate data).*1 →
        p_data (max_curtailment_Rate m) !! k = None) ∧
  (∀ l1 k v l2, d_max_curtailment_Rate data = l1 ++ (k, v) :: l2 →
                k ∉ l2.*1 →
                p_data (max_curtailment_Rate m) !! k = Some v).
Proof.
  intros Hm. apply define_components_Ok in Hm
    as (keys & rate & cost & dc & cr & _ & Hrate & _ & _ & _ & ->).
  apply bind_Ok in Hrate as (d & Hd & [= <-]). simpl.
  apply Param_store_Ok in Hd as (_ & Hout & Hlast).
  split; [done |]. split; [done |]. split; [|done].
  intros k Hk. by rewrite (Hout k Hk).
Qed.

(** A cap of 1 never binds: with non-negative dispatch and weights, and
    every pair of the key in GEN_TPS, the equalities alone keep the weighted
    curtailment below the weighted ceiling.  A pair without a cap is indeed
    as free as one capped at the default. *)
Lemma rate_one_never_binds mod_ data m sol p e :
  define_components mod_ data = Ok m →
  feasible m sol →
  (∀ gt, gt ∈ pairs_of_source mod_ p e →
         gt ∈ GEN_TPS mod_ ∧ 0 <= sol (DispatchGen gt.1 gt.2) ∧
         0 <= tp_weight mod_ gt.2) →
  weighted_total mod_ p e Curtailment sol
  <= 1 * weighted_total mod_ p e DispatchUpperLimit sol.
Proof.
  intros Hm Hsol Hpairs. rewrite Qmult_1_l. unfold weighted_total.
  apply Qsum_le. intros [g t] Hgt.
  destruct (Hpairs _ Hgt) as (Hin & Hgen & Hw). simpl in *.
  destruct (feasible_equality _ _ _ _ _ _ Hm Hin Hsol) as (_ & Heq & _).
  apply Qmult_le_compat_r; lra.
Qed.

(** C3, as stated, fails: after loading a file whose only row is
    (2030, Solar, 0.2), the parameter reads 0.2 at (2030, Solar), and
    reading it at the unlisted key (2030, Wind) raises a KeyError instead of
    yielding 1. *)
Lemma max_curtailment_Rate_unlisted_key :
  build example_files example_model "inputs" = Ok example_built ∧
  ((2030%Z, "Wind"%string) ∉ (d_max_curtailment_Rate example_data).*1) ∧
  Param_getitem (max_curtailment_Rate example_built) (2030%Z, "Solar"%string)
    = Ok (2 # 10) ∧
  Param_getitem (max_curtailment_Rate example_built) (2030%Z, "Wind"%string)
    = Raise KeyError ∧
  Param_getitem (max_curtailment_Rate example_built) (2030%Z, "Wind"%string)
    ≠ Ok 1.
Proof.
  split; [by vm_compute |].
  split; [apply (bool_decide_unpack _); by vm_compute |].
  split; [by vm_compute |].
  split; [by vm_compute |].
  by vm_compute.
Qed.

(** C3, amended.  After load_inputs has read curtailment_rate_max.tab and
    the model is built, max_curtailment_Rate read at a key (P, E) yields the
    rate r of the row (P, E, r) of the file (the last such row, should the
    key be repeated), and a (period, energy source) pair that is not in the
    file is not in PERIOD_Curtailment_MAX: reading the parameter there
    raises a KeyError, and no Curtailment_Rate constraint exists for it.
    The default 1 is what a key of PERIOD_Curtailment_MAX reads as when the
    data gives it no value. *)
Theorem max_curtailment_Rate_read_back :
  (∀ (fs : FileSystem) inputs_dir mod_ data m,
     load_inputs fs inputs_dir = Ok data →
     define_components mod_ data = Ok m →
     (∀ l1 P E r l2,
        d_max_curtailment_Rate data = l1 ++ ((P, E), r) :: l2 →
        (P, E) ∉ l2.*1 →
        Param_getitem (max_curtailment_Rate m) (P, E) = Ok r) ∧
     (∀ P E,
        (P, E) ∉ (d_max_curtailment_Rate data).*1 →
        ((P, E) ∉ PERIOD_Curtailment_MAX m) ∧
        Param_getitem (max_curtailment_Rate m) (P, E) = Raise KeyError ∧
        ∀ c, ((P, E), c) ∉ Curtailment_Rate m)) ∧
  (∀ mod_ data m k,
     define_components mod_ data = Ok m →
     k ∈ PERIOD_Curtailment_MAX m →
     k ∉ (d_max_curtailment_Rate data).*1 →
     Param_getitem (max_curtailment_Rate m) k = Ok 1).
Proof.
  split.
  - intros fs inputs_dir mod_ data m Hdata Hm.
    destruct (max_curtailment_Rate_data _ _ _ Hm)
      as (Hidx & _ & Hnone & Hsome).
    split.
    + intros l1 P E r l2 Heq Hlast. unfold Param_getitem.
      by rewrite (Hsome _ _ _ _ Heq Hlast).
    + intros P E Hout.
      assert ((P, E) ∉ PERIOD_Curtailment_MAX m) as Hkey.
      { rewrite (PERIOD_Curtailment_MAX_keys _ _ _ _ Hm).
        apply load_aug_Ok in Hdata as (tab & _ & -> & _). done. }
      split; [done |]. split.
      * unfold Param_getitem. rewrite (Hnone _ Hout), Hidx.
        by rewrite bool_decide_eq_false_2.
      * intros c Hc. apply Hkey.
        apply define_components_Ok in Hm
          as (keys & rate & cost & dc & cr & _ & _ & _ & _ & Hcr & ->).
        simpl in *. rewrite <- (Constraint_construct_keys _ _ _ Hcr).
        apply list_elem_of_fmap. by exists ((P, E), c).
  - intros mod_ data m k Hm Hk Hout.
    destruct (max_curtailment_Rate_data _ _ _ Hm)
      as (Hidx & Hdef & Hnone & _).
    unfold Param_getitem.
    by rewrite (Hnone _ Hout), Hidx, bool_decide_eq_true_2, Hdef.
Qed.

Lemma max_curtailment_Rate_read_back_witness :
  (load_inputs example_files "inputs" = Ok example_data ∧
   define_components example_model example_data = Ok example_built ∧
   Param_getitem (max_curtailment_Rate example_built)
     (2030%Z, "Solar"%string) = Ok (2 # 10) ∧
   Param_getitem (max_curtailment_Rate example_built)
     (2030%Z, "Wind"%string) = Raise KeyError) ∧
  (define_components example_model unvalued = Ok unvalued_built ∧
   (2030%Z, "Solar"%string) ∈ PERIOD_Curtailment_MAX unvalued_built ∧
   Param_getitem (max_curtailment_Rate unvalued_built)
     (2030%Z, "Solar"%string) = Ok 1).
Proof.
  assert (load_inputs example_files "inputs" = Ok example_data)
    as Hdata by (vm_compute; reflexivity).
  assert (define_components example_model example_data = Ok example_built)
    as Hm by (vm_compute; reflexivity).
  assert (define_components example_model unvalued = Ok unvalued_built)
    as Hu by (vm_compute; reflexivity).
  assert ((2030%Z, "Solar"%string) ∈ PERIOD_Curtailment_MAX unvalued_built)
    as Hk by (apply (bool_decide_unpack _); vm_compute; exact I).
  assert ((2030%Z, "Wind"%string) ∉ (d_max_curtailment_Rate example_data).*1)
    as Hwind by (apply (bool_decide_unpack _); vm_compute; exact I).
  assert ((2030%Z, "Solar"%string) ∉ (d_max_curtailment_Rate unvalued).*1)
    as Hnone by (apply (bool_decide_unpack _); vm_compute; exact I).
  assert ((2030%Z, "Solar"%string) ∉ (@nil (Z * string * Q)).*1)
    as Hlast by (apply (bool_decide_unpack _); vm_compute; exact I).
  split.
  - destruct (proj1 max_curtailment_Rate_read_back example_files "inputs"
                example_model example_data example_built Hdata Hm)
      as [Hlisted Hunlisted].
    split; [exact Hdata |]. split; [exact Hm |]. split.
    + exact (Hlisted [] 2030%Z "Solar"%string (2 # 10) [] eq_refl Hlast).
    + exact (proj1 (proj2 (Hunlisted 2030%Z "Wind"%string Hwind))).
  - split; [exact Hu |]. split; [exact Hk |].
    exact (proj2 max_curtailment_Rate_read_back example_model unvalued
             unvalued_built (2030%Z, "Solar"%string) Hu Hk Hnone).
Defined.

(** ** The report *)

(** C5. The detail file holds one record per pair of GEN_TPS, and the
    record of (g, t) has Energy_GWh_typical_yr_ideal =
    DispatchUpperLimit[g, t] * tp_weight_in_year[t] / 1000,
    Energy_GWh_typical_yr_actual = DispatchGen[g, t] * tp_weight_in_year[t]
    / 1000 and VariableCost_per_yr = DispatchUpperLimit[g, t] *
    gen_variable_om[g] * tp_weight_in_year[t]; with gen_variable_om = 2,
    tp_weight_in_year = 10, DispatchUpperLimit = 100 and DispatchGen = 80
    these are 1.0, 0.8 and 2000. *)
Theorem detail_record_energy_and_cost instance sol outdir g t :
  post_solve instance sol outdir !! 0%nat
    = Some (path_join outdir "dispatch.csv",
            DetailCsv (dispatch_record instance sol <$> GEN_TPS instance)) ∧
  let r := dispatch_record instance sol (g, t) in
  let w := tp_weight_in_year instance t in
  Dispatch.generation_project r = g ∧
  Dispatch.timestamp r = tp_timestamp instance t ∧
  Dispatch.Energy_GWh_typical_yr_ideal r
    == sol (DispatchUpperLimit g t) * w / 1000 ∧
  Dispatch.Energy_GWh_typical_yr_actual r
    == sol (DispatchGen g t) * w / 1000 ∧
  Dispatch.VariableCost_per_yr r
    == sol (DispatchUpperLimit g t) * gen_variable_om instance g * w ∧
  (gen_variable_om instance g == 2 → w == 10 →
   sol (DispatchUpperLimit g t) == 100 → sol (DispatchGen g t) == 80 →
   Dispatch.Energy_GWh_typical_yr_ideal r == 1 ∧
   Dispatch.Energy_GWh_typical_yr_actual r == 8 # 10 ∧
   Dispatch.VariableCost_per_yr r == 2000).
Proof.
  split; [done |]. simpl.
  split; [done |]. split; [done |].
  unfold value. simpl.
  split; [done |]. split; [done |]. split; [done |].
  intros -> -> -> ->. split; [done |]. split; done.
Qed.

Lemma detail_record_energy_and_cost_witness :
  gen_variable_om example_model "G1" == 2 ∧
  tp_weight_in_year example_model 1 == 10 ∧
  example_solution (DispatchUpperLimit "G1" 1) == 100 ∧
  example_solution (DispatchGen "G1" 1) == 80 ∧
  let r := dispatch_record example_model example_solution
             ("G1"%string, 1%Z) in
  Dispatch.Energy_GWh_typical_yr_ideal r == 1 ∧
  Dispatch.Energy_GWh_typical_yr_actual r == 8 # 10 ∧
  Dispatch.VariableCost_per_yr r == 2000.
Proof.
  assert (gen_variable_om example_model "G1" == 2) as H1 by reflexivity.
  assert (tp_weight_in_year example_model 1 == 10) as H2 by reflexivity.
  assert (example_solution (DispatchUpperLimit "G1" 1) == 100)
    as H3 by reflexivity.
  assert (example_solution (DispatchGen "G1" 1) == 80) as H4 by reflexivity.
  split; [exact H1 |]. split; [exact H2 |].
  split; [exact H3 |]. split; [exact H4 |].
  destruct (detail_record_energy_and_cost example_model example_solution
              "out" "G1" 1%Z) as (_ & _ & _ & _ & _ & _ & Hrow).
  exact (Hrow H1 H2 H3 H4).
Defined.

Lemma value_fuel_emissions instance sol g t :
  value sol (py_sum
    (map (λ f, py_mul (PExpr (ELeaf (DispatchEmissions g t f)))
                      (PNum (tp_weight_in_year instance t)))
         (FUELS_FOR_GEN instance g)))
  == fuel_emissions instance sol (g, t).
Proof.
  rewrite value_py_sum. unfold fuel_emissions. simpl.
  change (map ?f ?l) with (f <$> l). by rewrite <- list_fmap_compose.
Qed.

(** C7. The DispatchEmissions_tCO2_per_typical_yr field of the record of
    (g, t) is the sum over the fuels f of FUELS_FOR_GEN[g] of
    DispatchEmissions[g, t, f] * tp_weight_in_year[t] when gen_uses_fuel[g]
    holds, and None when the project does not use fuel. *)
Theorem detail_record_emissions instance sol g t :
  let r := dispatch_record instance sol (g, t) in
  (gen_uses_fuel instance g = true →
   ∃ v, Dispatch.DispatchEmissions_tCO2_per_typical_yr r = Some v ∧
        v == fuel_emissions instance sol (g, t)) ∧
  (gen_uses_fuel instance g = false →
   Dispatch.DispatchEmissions_tCO2_per_typical_yr r = None).
Proof.
  simpl. split; intros ->; [|done].
  eexists. split; [done |]. apply value_fuel_emissions.
Qed.

Lemma detail_record_emissions_witness :
  (gen_uses_fuel example_model "G3" = true ∧
   ∃ v, Dispatch.DispatchEmissions_tCO2_per_typical_yr
          (dispatch_record example_model example_solution
             ("G3"%string, 1%Z)) = Some v ∧
        v == fuel_emissions example_model example_solution
               ("G3"%string, 1%Z)) ∧
  (gen_uses_fuel example_model "G1" = false ∧
   Dispatch.DispatchEmissions_tCO2_per_typical_yr
     (dispatch_record example_model example_solution ("G1"%string, 1%Z))
   = None).
Proof.
  assert (gen_uses_fuel example_model "G3" = true) as H3 by reflexivity.
  assert (gen_uses_fuel example_model "G1" = false) as H1 by reflexivity.
  split.
  - split; [exact H3 |].
    exact (proj1 (detail_record_emissions example_model example_solution
                    "G3" 1%Z) H3).
  - split; [exact H1 |].
    exact (proj2 (detail_record_emissions example_model example_solution
                    "G1" 1%Z) H1).
Defined.

(** *** The summary *)

Lemma group_keys_NoDup df : NoDup (group_keys df).
Proof.
  unfold group_keys. rewrite merge_sort_Permutation. apply NoDup_remove_dups.
Qed.

Lemma elem_of_group_keys df k :
  k ∈ group_keys df ↔ ∃ r, r ∈ df ∧ key_of r = k.
Proof.
  unfold group_keys.
  rewrite merge_sort_Permutation, elem_of_remove_dups, list_elem_of_fmap.
  split; intros (r & ? & ?); exists r; by split.
Qed.

Lemma groupby_sum_keys df : (groupby_sum df).*1 = group_keys df.
Proof.
  unfold groupby_sum. rewrite <- list_fmap_compose.
  induction (group_keys df) as [|k l IH]; [done |].
  rewrite fmap_cons. by f_equal.
Qed.

(** The rows of Curtailment_energy.csv. *)
Lemma energy_csv_rows instance sol outdir :
  let df := dispatch_record instance sol <$> GEN_TPS instance in
  let summary := prod_map id energy_columns <$> groupby_sum df in
  post_solve instance sol outdir !! 1%nat
    = Some (path_join outdir "Curtailment_energy.csv", EnergyCsv summary) ∧
  summary.*1 = group_keys df ∧
  ∀ k row, (k, row) ∈ summary →
    row = energy_columns (sum_group (filter (λ r, key_of r = k) df)).
Proof.
  intros df summary. split; [done |]. split.
  - rewrite <- groupby_sum_keys. unfold summary.
    rewrite <- list_fmap_compose. apply list_fmap_ext. by intros ? [??].
  - intros k row Hin. unfold summary, groupby_sum in Hin.
    rewrite <- list_fmap_compose in Hin.
    apply list_elem_of_fmap in Hin as (k' & Heq & _).
    simpl in Heq. by injection Heq as -> ->.
Qed.

Lemma Qsum_pair (a b : Q) : Qsum [a; b] == a + b.
Proof. unfold Qsum. simpl. lra. Qed.

Lemma Qsum_foldr (l : list Q) : Qsum l == foldr Qplus 0 l.
Proof.
  induction l as [|x l IH]; [done |].
  rewrite Qsum_cons, IH. done.
Qed.

Lemma Qsum_skipna_cons (x : option Q) (l : list (option Q)) :
  Qsum_skipna (x :: l) == match x with
                          | Some v => v + Qsum_skipna l
                          | None => Qsum_skipna l
                          end.
Proof. destruct x as [v|]; [apply Qsum_cons | done]. Qed.

Lemma Qsum_skipna_foldr {A} (f : A → option Q) (l : list A) :
  Qsum_skipna (f <$> l) == foldr Qplus 0 ((λ a, default 0 (f a)) <$> l).
Proof.
  induction l as [|a l IH]; [done |].
  rewrite !fmap_cons, Qsum_skipna_cons. simpl.
  destruct (f a); simpl; rewrite IH; lra.
Qed.

(** *** When the summary is written *)



Lemma post_solve_run_files instance sol outdir :
  snd (post_solve_run instance sol outdir) = Ok () →
  fst (post_solve_run instance sol outdir) = post_solve instance sol outdir.
Proof.
  unfold post_solve_run, post_solve, dispatch_normalized_dat.
  change (map ?f ?l) with (f <$> l).
  destruct (dispatch_record instance sol <$> GEN_TPS instance) as [|r l];
    [done |].
  by destruct (emissions_numeric (r :: l)).
Qed.

Lemma post_solve_run_summary instance sol outdir path summary :
  (path, EnergyCsv summary) ∈ fst (post_solve_run instance sol outdir) →
  snd (post_solve_run instance sol outdir) = Ok () ∧
  path = path_join outdir "Curtailment_energy.csv" ∧
  summary = prod_map id energy_columns
            <$> groupby_sum (dispatch_record instance sol
                             <$> GEN_TPS instance).
Proof.
  unfold post_solve_run, dispatch_normalized_dat.
  change (map ?f ?l) with (f <$> l).
  destruct (dispatch_record instance sol <$> GEN_TPS instance) as [|r l].
  - by inversion 1.
  - destruct (emissions_numeric (r :: l)); simpl; intros Hin.
    + apply elem_of_cons in Hin as [[=] | Hin].
      apply list_elem_of_singleton in Hin as [= -> ->]. done.
    + by apply list_elem_of_singleton in Hin as [=].
Qed.



(** X19. When its run completes, post_solve has grouped the detail records
    by (gen_tech, gen_energy_source, period), summed the numeric columns of
    each group and written to Curtailment_energy.csv, per key, the columns
    Energy_GWh_typical_yr_ideal, Energy_GWh_typical_yr_actual,
    VariableCost_per_yr and DispatchEmissions_tCO2_per_typical_yr.  A key
    has one row, which holds for each column the sum of the values of the
    records of the key, a missing emissions value counting for nothing;
    two records are in one row exactly when they agree on the three keys,
    and a group of two records has the sums of their energy and cost
    values. *)
Theorem annual_summary_by_group instance sol outdir :
  let df := dispatch_record instance sol <$> GEN_TPS instance in
  snd (post_solve_run instance sol outdir) = Ok () →
  ∃ summary,
    fst (post_solve_run instance sol outdir)
      = [ (path_join outdir "dispatch.csv", DetailCsv df);
          (path_join outdir "Curtailment_energy.csv", EnergyCsv summary) ] ∧
    NoDup summary.*1 ∧
    (∀ k row, (k, row) ∈ summary →
       let group := filter (λ r, key_of r = k) df in
       group ≠ [] ∧
       Energy.Energy_GWh_typical_yr_ideal row
         == foldr Qplus 0 (Dispatch.Energy_GWh_typical_yr_ideal <$> group) ∧
       Energy.Energy_GWh_typical_yr_actual row
         == foldr Qplus 0 (Dispatch.Energy_GWh_typical_yr_actual <$> group) ∧
       Energy.VariableCost_per_yr row
         == foldr Qplus 0 (Dispatch.VariableCost_per_yr <$> group) ∧
       Energy.DispatchEmissions_tCO2_per_typical_yr row
         == foldr Qplus 0
              ((λ r, default 0
                       (Dispatch.DispatchEmissions_tCO2_per_typical_yr r))
               <$> group)) ∧
    (∀ r1 r2, r1 ∈ df → r2 ∈ df →
       ∃ i j row1 row2,
         summary !! i = Some (key_of r1, row1) ∧
         summary !! j = Some (key_of r2, row2) ∧
         (i = j ↔ Dispatch.gen_tech r1 = Dispatch.gen_tech r2 ∧
                  Dispatch.gen_energy_source r1
                    = Dispatch.gen_energy_source r2 ∧
                  Dispatch.period r1 = Dispatch.period r2)) ∧
    (∀ k row r1 r2, (k, row) ∈ summary →
       filter (λ r, key_of r = k) df = [r1; r2] →
       Energy.Energy_GWh_typical_yr_ideal row
         == Dispatch.Energy_GWh_typical_yr_ideal r1
            + Dispatch.Energy_GWh_typical_yr_ideal r2 ∧
       Energy.Energy_GWh_typical_yr_actual row
         == Dispatch.Energy_GWh_typical_yr_actual r1
            + Dispatch.Energy_GWh_typical_yr_actual r2 ∧
       Energy.VariableCost_per_yr row
         == Dispatch.VariableCost_per_yr r1
            + Dispatch.VariableCost_per_yr r2).
Proof.
  intros df Hrun.
  pose proof (post_solve_run_files _ _ _ Hrun) as Hfiles.
  destruct (energy_csv_rows instance sol outdir) as (_ & Hkeys & Hrows).
  fold df in Hkeys, Hrows.
  set (summary := prod_map id energy_columns <$> groupby_sum df) in *.
  exists summary. split; [by rewrite Hfiles |].
  split; [rewrite Hkeys; apply group_keys_NoDup |].
  split; [|split].
  - intros k row Hin group. split.
    + assert (k ∈ summary.*1) as Hk.
      { apply list_elem_of_fmap. by exists (k, row). }
      rewrite Hkeys in Hk. apply elem_of_group_keys in Hk as (r & Hr & Hkr).
      intros Hnil. assert (r ∈ group) as Hg
        by by apply list_elem_of_filter.
      rewrite Hnil in Hg. by inversion Hg.
    + rewrite (Hrows k row Hin). fold group. cbn.
      split; [apply Qsum_foldr |]. split; [apply Qsum_foldr |].
      split; [apply Qsum_foldr | apply Qsum_skipna_foldr].
  - intros r1 r2 Hr1 Hr2.
    assert (∀ r, r ∈ df → ∃ i row, summary !! i = Some (key_of r, row))
      as Hrow.
    { intros r Hr.
      assert (key_of r ∈ summary.*1) as Hk
        by (rewrite Hkeys; apply elem_of_group_keys; eauto).
      apply list_elem_of_fmap in Hk as ([k row] & Hk & Hin).
      simpl in Hk. subst k.
      apply list_elem_of_lookup in Hin as [i Hi]. eauto. }
    destruct (Hrow r1 Hr1) as (i & row1 & Hi).
    destruct (Hrow r2 Hr2) as (j & row2 & Hj).
    exists i, j, row1, row2. split; [done |]. split; [done |].
    assert (i = j ↔ key_of r1 = key_of r2) as ->.
    { assert (NoDup summary.*1) as Hnd
        by (rewrite Hkeys; apply group_keys_NoDup).
      assert (summary.*1 !! i = Some (key_of r1)) as Hi'
        by by rewrite list_lookup_fmap, Hi.
      assert (summary.*1 !! j = Some (key_of r2)) as Hj'
        by by rewrite list_lookup_fmap, Hj.
      split.
      - intros ->. congruence.
      - intros Heq. rewrite <- Heq in Hj'.
        by eapply NoDup_lookup. }
    unfold key_of. split.
    + by intros [= -> -> ->].
    + by intros (-> & -> & ->).
  - intros k row r1 r2 Hin Hgroup.
    rewrite (Hrows k row Hin), Hgroup. simpl.
    split; [apply Qsum_pair |]. split; apply Qsum_pair.
Qed.

Lemma annual_summary_by_group_witness :
  let df := dispatch_record example_model example_solution
            <$> GEN_TPS example_model in
  let r1 := dispatch_record example_model example_solution
              ("G1"%string, 1%Z) in
  let r2 := dispatch_record example_model example_solution
              ("G2"%string, 1%Z) in
  let r3 := dispatch_record example_model example_solution
              ("G3"%string, 1%Z) in
  snd (post_solve_run example_model example_solution "out") = Ok () ∧
  r1 ∈ df ∧ r3 ∈ df ∧
  filter (λ r, key_of r = key_of r1) df = [r1; r2] ∧
  ∃ summary,
    fst (post_solve_run example_model example_solution "out")
      = [ (path_join "out" "dispatch.csv", DetailCsv df);
          (path_join "out" "Curtailment_energy.csv", EnergyCsv summary) ] ∧
    (∃ i j row1 row3,
       summary !! i = Some (key_of r1, row1) ∧
       summary !! j = Some (key_of r3, row3) ∧
       (i = j ↔ Dispatch.gen_tech r1 = Dispatch.gen_tech r3 ∧
                Dispatch.gen_energy_source r1
                  = Dispatch.gen_energy_source r3 ∧
                Dispatch.period r1 = Dispatch.period r3) ∧
       Energy.Energy_GWh_typical_yr_ideal row1
         == Dispatch.Energy_GWh_typical_yr_ideal r1
            + Dispatch.Energy_GWh_typical_yr_ideal r2 ∧
       Energy.Energy_GWh_typical_yr_actual row1
         == Dispatch.Energy_GWh_typical_yr_actual r1
            + Dispatch.Energy_GWh_typical_yr_actual r2 ∧
       Energy.VariableCost_per_yr row1
         == Dispatch.VariableCost_per_yr r1
            + Dispatch.VariableCost_per_yr r2).
Proof.
  intros df r1 r2 r3.
  assert (snd (post_solve_run example_model example_solution "out") = Ok ())
    as Hrun by (vm_compute; reflexivity).
  assert (r1 ∈ df) as H1 by (vm_compute; left).
  assert (r3 ∈ df) as H3 by (vm_compute; right; right; left).
  assert (filter (λ r, key_of r = key_of r1) df = [r1; r2])
    as Hgroup by (vm_compute; reflexivity).
  split; [exact Hrun |].
  split; [exact H1 |]. split; [exact H3 |]. split; [exact Hgroup |].
  destruct (annual_summary_by_group example_model example_solution "out"
              Hrun)
    as (summary & Hfile & _ & _ & Hrows & Hpair).
  exists summary. split; [exact Hfile |].
  destruct (Hrows r1 r3 H1 H3) as (i & j & row1 & row3 & Hi & Hj & Hij).
  exists i, j, row1, row3.
  split; [exact Hi |]. split; [exact Hj |]. split; [exact Hij |].
  apply (Hpair (key_of r1) row1 r1 r2); [|exact Hgroup].
  by eapply list_elem_of_lookup_2.
Defined.







(** * Further properties *)

(** ** What a built model is made of *)

Lemma mapM_Ok_elem_r {A B} (f : A → result B) (l : list A) (bs : list B) b :
  mapM f l = Ok bs → b ∈ bs → ∃ a, a ∈ l ∧ f a = Ok b.
Proof.
  rewrite mapM_Ok. intros H Hb.
  destruct (list_elem_of_lookup_1 _ _ Hb) as [i Hi].
  destruct (Forall2_lookup_r _ _ _ _ _ H Hi) as (a & Ha & Hf).
  exists a. split; [by eapply list_elem_of_lookup_2 | done].
Qed.

Lemma mapM_Raise_or_Ok {A B} (f : A → result B) (l : list A) e :
  (∀ x, x ∈ l → f x = Raise e ∨ ∃ b, f x = Ok b) →
  mapM f l = Raise e ∨ ∃ bs, mapM f l = Ok bs.
Proof.
  induction l as [|x l IH]; intros H; [right; by exists [] |].
  change (mapM f (x :: l))
    with (f x ≫= (λ b, mapM f l ≫= λ k, Ok (b :: k))).
  destruct (H x) as [-> | [b ->]]; [left | by left |]. simpl.
  destruct IH as [-> | [bs ->]]; [intros; apply H; by right | by left |].
  right. by eexists.
Qed.

Lemma Set_construct_NoDup {K} `{EqDecision K} (validate : K → bool)
    (elems acc s : list K) :
  Set_construct validate elems acc = Ok s → NoDup acc → NoDup s.
Proof.
  revert acc. induction elems as [|x l IH]; intros acc; simpl.
  - by intros [= <-].
  - destruct (validate x); [|done]. intros Hs Hacc. apply (IH _ Hs).
    case_bool_decide as Hx; [done |].
    apply NoDup_app. split; [done |]. split; [|apply NoDup_singleton].
    intros y Hy ->%list_elem_of_singleton. done.
Qed.

Lemma Param_store_lookup index within entries acc d k v :
  Param_store index within entries acc = Ok d →
  d !! k = Some v → acc !! k = Some v ∨ (k, v) ∈ entries.
Proof.
  revert acc. induction entries as [|[k0 v0] l IH]; intros acc; simpl.
  - intros [= <-]. by left.
  - case_bool_decide as Hk0; [|done]. destruct (within v0); [|done].
    intros Hs Hd. destruct (IH _ Hs Hd) as [Hacc | Hin].
    + rewrite lookup_insert in Hacc. case_decide as Hk.
      * injection Hacc as <-. subst k0. right. left.
      * by left.
    + right. by right.
Qed.

Lemma Param_store_Raise index within entries acc k v :
  (∀ k' v', (k', v') ∈ entries → k' ∈ index) →
  (k, v) ∈ entries → within v = false →
  Param_store index within entries acc = Raise RuntimeError.
Proof.
  revert acc. induction entries as [|[k0 v0] l IH]; intros acc Hidx Hin Hv;
    [by inversion Hin |].
  simpl. rewrite bool_decide_eq_true_2 by (eapply Hidx; left).
  destruct (within v0) eqn:Hv0; [|done].
  apply elem_of_cons in Hin as [[= -> ->] | Hin]; [congruence |].
  apply IH; [|done..]. intros k' v' ?. apply (Hidx k' v'). by right.
Qed.

(** In a built model every pair of a key has a Curtailment variable and
    every key has a pair. *)
Lemma built_pairs mod_ data m p e :
  define_components mod_ data = Ok m →
  (p, e) ∈ PERIOD_Curtailment_MAX m →
  pairs_of_source mod_ p e ≠ [] ∧
  ∀ gt, gt ∈ pairs_of_source mod_ p e → gt ∈ GEN_TPS mod_.
Proof.
  intros Hm Hk. apply define_components_Ok in Hm
    as (keys & rate & cost & dc & cr & _ & _ & _ & _ & Hcr & ->).
  simpl in Hk.
  destruct (Constraint_construct_elem _ _ _ _ Hcr Hk) as (c & Hc & _).
  split.
  - intros Hnil. pose proof Hc as Hrule.
    unfold Curtailment_Rate_rule in Hc.
    apply bind_Ok in Hc as (lhs & _ & Hc).
    apply bind_Ok in Hc as (r & Hr & _).
    by rewrite (Curtailment_Rate_rule_trivial _ _ _ _ r Hnil Hr) in Hrule.
  - intros [g t] Hgt. unfold Curtailment_Rate_rule in Hc.
    apply bind_Ok in Hc as (lhs & Hlhs & _).
    destruct (mapM_Ok_elem _ _ _ _ Hlhs Hgt) as (v & Hv & _).
    simpl in Hv. apply bind_Ok in Hv as (x & Hx & _).
    by apply Curtailment_getitem_Ok in Hx as [? _].
Qed.

Lemma built_rate mod_ data m k :
  define_components mod_ data = Ok m →
  k ∈ PERIOD_Curtailment_MAX m →
  ∃ r, Param_getitem (max_curtailment_Rate m) k = Ok r ∧ 0 <= r.
Proof.
  intros Hm Hk. apply define_components_Ok in Hm
    as (keys & rate & cost & dc & cr & _ & Hrate & _ & _ & _ & ->).
  apply bind_Ok in Hrate as (d & Hd & [= <-]). simpl in *.
  unfold Param_getitem. simpl.
  destruct (d !! k) as [v|] eqn:Hv.
  - exists v. split; [done |].
    destruct (Param_store_lookup _ _ _ _ _ _ _ Hd Hv) as [Hacc | Hin];
      [by rewrite lookup_empty in Hacc |].
    apply Param_store_Ok in Hd as (Hall & _).
    apply Qle_bool_iff. by apply (Hall k v).
  - rewrite bool_decide_eq_true_2 by done. by exists 1.
Qed.

Lemma built_Dispatch_Curtailment mod_ data m :
  define_components mod_ data = Ok m →
  Dispatch_Curtailment m
  = (λ gt, (gt, {| c_lhs := EAdd (ELeaf (DispatchGen gt.1 gt.2))
                                 (ELeaf (Curtailment gt.1 gt.2));
                   c_rel := REq;
                   c_rhs := ELeaf (DispatchUpperLimit gt.1 gt.2) |}))
    <$> GEN_TPS mod_.
Proof.
  intros Hm. apply define_components_Ok in Hm
    as (keys & rate & cost & dc & cr & _ & _ & _ & Hdc & _ & ->).
  rewrite Dispatch_Curtailment_total in Hdc. by injection Hdc as <-.
Qed.

Lemma built_Curtailment_Rate mod_ data m k c :
  define_components mod_ data = Ok m →
  (k, c) ∈ Curtailment_Rate m →
  k ∈ PERIOD_Curtailment_MAX m ∧
  Curtailment_Rate_rule mod_ (max_curtailment_Rate m) k = Ok (PRel c).
Proof.
  intros Hm Hin. apply define_components_Ok in Hm
    as (keys & rate & cost & dc & cr & _ & _ & _ & _ & Hcr & ->).
  simpl in *.
  destruct (mapM_Ok_elem_r _ _ _ _ Hcr Hin) as (k' & Hk' & Hrule).
  apply bind_Ok in Hrule as ([b|c'] & Hrule & Heq); [done |].
  by injection Heq as -> ->.
Qed.

(** X1. define_components builds a model exactly when every key offered
    names a declared period and a declared energy source, every rate is
    non-negative and sits at an offered key, and every key has at least one
    (project, timepoint) pair, all its pairs being in GEN_TPS. *)
Theorem define_components_builds_iff mod_ data :
  (∃ m, define_components mod_ data = Ok m) ↔
  (∀ p e, (p, e) ∈ d_PERIOD_Curtailment_MAX data →
          p ∈ PERIODS mod_ ∧ e ∈ ENERGY_SOURCES mod_) ∧
  (∀ k v, (k, v) ∈ d_max_curtailment_Rate data →
          k ∈ d_PERIOD_Curtailment_MAX data ∧ 0 <= v) ∧
  (∀ p e, (p, e) ∈ d_PERIOD_Curtailment_MAX data →
          pairs_of_source mod_ p e ≠ [] ∧
          ∀ gt, gt ∈ pairs_of_source mod_ p e → gt ∈ GEN_TPS mod_).
Proof.
  split.
  - intros [m Hm]. split; [|split].
    + intros p e Hin.
      destruct (define_components_Ok _ _ _ Hm)
        as (keys & rate & cost & dc & cr & Hkeys & _).
      apply Set_construct_Ok in Hkeys as [Hall _].
      by apply PERIOD_Curtailment_MAX_validate_true, Hall.
    + intros k v Hin.
      destruct (define_components_Ok _ _ _ Hm)
        as (keys & rate & cost & dc & cr & Hkeys & Hrate & _).
      apply bind_Ok in Hrate as (d & Hd & _).
      apply Param_store_Ok in Hd as (Hall & _).
      destruct (Hall k v Hin) as [Hk Hv].
      apply Set_construct_Ok in Hkeys as [_ Hs].
      apply Hs in Hk as [Hk | Hk]; [by inversion Hk |].
      split; [done | by apply Qle_bool_iff].
    + intros p e Hin. apply (built_pairs _ _ _ _ _ Hm).
      by apply (PERIOD_Curtailment_MAX_keys _ _ _ _ Hm).
  - intros (Hkeys & Hvals & Hpairs). by apply define_components_total.
Qed.

(** X2. When the keys and the rates are in order and a key (p, e) has a
    project of energy source e that is not in GEN_TPS at a timepoint of p,
    the build raises a KeyError: the sums of the module index Curtailment
    over GENERATION_PROJECTS x TPS_IN_PERIOD[p], and Curtailment is declared
    over GEN_TPS only. *)
Theorem build_KeyError_outside_GEN_TPS mod_ data p e g t :
  (∀ p' e', (p', e') ∈ d_PERIOD_Curtailment_MAX data →
            p' ∈ PERIODS mod_ ∧ e' ∈ ENERGY_SOURCES mod_) →
  (∀ k v, (k, v) ∈ d_max_curtailment_Rate data →
          k ∈ d_PERIOD_Curtailment_MAX data ∧ 0 <= v) →
  (p, e) ∈ d_PERIOD_Curtailment_MAX data →
  (g, t) ∈ pairs_of_source mod_ p e →
  (g, t) ∉ GEN_TPS mod_ →
  define_components mod_ data = Raise KeyError.
Proof.
  intros Hkeys Hvals Hk Hgt Hout. unfold define_components.
  destruct (Set_construct_total (PERIOD_Curtailment_MAX_validate mod_)
              (d_PERIOD_Curtailment_MAX data) []) as [keys Hs].
  { intros [p' e'] Hk'.
    by apply PERIOD_Curtailment_MAX_validate_true, Hkeys. }
  rewrite Hs. simpl. apply Set_construct_Ok in Hs as [_ Hs].
  destruct (Param_store_total keys NonNegativeReals
              (d_max_curtailment_Rate data) ∅) as [d Hd].
  { intros k v Hkv. destruct (Hvals k v Hkv) as [Hin Hv]. split.
    - apply Hs. by right.
    - by apply Qle_bool_iff. }
  unfold Param_construct. rewrite Hd. simpl.
  assert (∀ k, Curtailment_Cost_rule mod_ k = Raise KeyError ∨
               ∃ v, Curtailment_Cost_rule mod_ k = Ok v) as Hrule.
  { intros [p' e']. unfold Curtailment_Cost_rule.
    destruct (mapM_Raise_or_Ok (λ gt, Curtailment_getitem mod_ gt.1 gt.2)
                (pairs_of_source mod_ p' e') KeyError) as [-> | [ts ->]].
    - intros [g' t'] _. unfold Curtailment_getitem, Var_getitem.
      case_bool_decide; eauto.
    - by left.
    - right. by eexists. }
  unfold Expression_construct.
  rewrite (mapM_Raise _ _ (p, e) KeyError); [done | | |].
  - apply Hs. by right.
  - intros k _. destruct (Hrule k) as [-> | [v ->]]; [by left |].
    right. by eexists.
  - unfold Curtailment_Cost_rule.
    rewrite (mapM_Raise _ _ (g, t) KeyError); [done | done | |].
    + intros [g' t'] _. unfold Curtailment_getitem, Var_getitem.
      case_bool_decide; eauto.
    + simpl. unfold Curtailment_getitem, Var_getitem.
      by rewrite bool_decide_eq_false_2.
Qed.

Lemma build_KeyError_outside_GEN_TPS_witness :
  (2030%Z, "Solar"%string) ∈ d_PERIOD_Curtailment_MAX example_data ∧
  ("G2"%string, 1%Z) ∈ pairs_of_source stranded_model 2030 "Solar" ∧
  (("G2"%string, 1%Z) ∉ GEN_TPS stranded_model) ∧
  define_components stranded_model example_data = Raise KeyError.
Proof.
  assert ((2030%Z, "Solar"%string) ∈ d_PERIOD_Curtailment_MAX example_data)
    as Hk by (apply (bool_decide_unpack _); vm_compute; exact I).
  assert (("G2"%string, 1%Z) ∈ pairs_of_source stranded_model 2030 "Solar")
    as Hgt by (apply (bool_decide_unpack _); vm_compute; exact I).
  assert (("G2"%string, 1%Z) ∉ GEN_TPS stranded_model)
    as Hout by (apply (bool_decide_unpack _); vm_compute; exact I).
  split; [exact Hk |]. split; [exact Hgt |]. split; [exact Hout |].
  apply (build_KeyError_outside_GEN_TPS stranded_model example_data
           2030%Z "Solar"%string "G2"%string 1%Z); [| | exact Hk | exact Hgt
           | exact Hout].
  - intros p' e' Hin. simpl in Hin.
    apply list_elem_of_singleton in Hin as [= -> ->].
    split; apply (bool_decide_unpack _); vm_compute; exact I.
  - intros k v Hin. simpl in Hin.
    apply list_elem_of_singleton in Hin as [= -> ->].
    split; [apply (bool_decide_unpack _); vm_compute; exact I |].
    vm_compute. discriminate.
Defined.

(** X3. When the keys and the rates are in order and every pair of every
    key is in GEN_TPS, a key that no (project, timepoint) pair matches makes
    the build raise a ValueError: both sums of its Curtailment_Rate rule are
    the number 0 and the rule returns a Python bool, which Constraint
    refuses. *)
Theorem build_ValueError_without_pair mod_ data p e :
  (∀ p' e', (p', e') ∈ d_PERIOD_Curtailment_MAX data →
            p' ∈ PERIODS mod_ ∧ e' ∈ ENERGY_SOURCES mod_) →
  (∀ k v, (k, v) ∈ d_max_curtailment_Rate data →
          k ∈ d_PERIOD_Curtailment_MAX data ∧ 0 <= v) →
  (∀ p' e' gt, (p', e') ∈ d_PERIOD_Curtailment_MAX data →
               gt ∈ pairs_of_source mod_ p' e' → gt ∈ GEN_TPS mod_) →
  (p, e) ∈ d_PERIOD_Curtailment_MAX data →
  pairs_of_source mod_ p e = [] →
  define_components mod_ data = Raise ValueError.
Proof.
  intros Hkeys Hvals Hsub Hk Hnil. unfold define_components.
  destruct (Set_construct_total (PERIOD_Curtailment_MAX_validate mod_)
              (d_PERIOD_Curtailment_MAX data) []) as [keys Hs].
  { intros [p' e'] Hk'.
    by apply PERIOD_Curtailment_MAX_validate_true, Hkeys. }
  rewrite Hs. simpl. apply Set_construct_Ok in Hs as [_ Hs].
  assert (∀ k, k ∈ keys ↔ k ∈ d_PERIOD_Curtailment_MAX data) as Hin.
  { intros k. rewrite Hs, elem_of_nil. tauto. }
  destruct (Param_store_total keys NonNegativeReals
              (d_max_curtailment_Rate data) ∅) as [d Hd].
  { intros k v Hkv. destruct (Hvals k v Hkv) as [Hk' Hv]. split.
    - by apply Hin.
    - by apply Qle_bool_iff. }
  unfold Param_construct. rewrite Hd. simpl.
  destruct (mapM_total (λ k, v ← Curtailment_Cost_rule mod_ k;
                             Ok (k, to_expr v)) keys) as [cost Hcost].
  { intros [p' e'] Hk'. unfold Curtailment_Cost_rule.
    destruct (mapM_total (λ gt, Curtailment_getitem mod_ gt.1 gt.2)
                (pairs_of_source mod_ p' e')) as [ts Hts].
    - intros [g t] Hgt. eexists. apply Curtailment_getitem_Ok.
      split; [|done]. apply (Hsub p' e'); [by apply Hin | done].
    - rewrite Hts. simpl. eauto. }
  unfold Expression_construct. rewrite Hcost. simpl.
  rewrite Dispatch_Curtailment_total. simpl.
  set (rate := {| p_index := keys; p_data := d; p_default := 1 |}).
  unfold Constraint_construct.
  rewrite (mapM_Raise _ _ (p, e) ValueError); [done | by apply Hin | |].
  - intros [p' e'] Hk'.
    destruct (Param_getitem_index rate (p', e')) as [r Hr]; [done |].
    destruct (pairs_of_source mod_ p' e') as [|gt l] eqn:Hpairs.
    + rewrite (Curtailment_Rate_rule_trivial _ _ _ _ r Hpairs Hr). by left.
    + destruct (Curtailment_Rate_rule_total mod_ rate p' e') as [c ->].
      * done.
      * by rewrite Hpairs.
      * intros gt' Hgt'. apply (Hsub p' e'); [by apply Hin | done].
      * right. by eexists.
  - destruct (Param_getitem_index rate (p, e)) as [r Hr]; [by apply Hin |].
    by rewrite (Curtailment_Rate_rule_trivial _ _ _ _ r Hnil Hr).
Qed.

Lemma build_ValueError_without_pair_witness :
  (2030%Z, "Wind"%string) ∈ d_PERIOD_Curtailment_MAX wind_data ∧
  pairs_of_source example_model 2030 "Wind" = [] ∧
  define_components example_model wind_data = Raise ValueError.
Proof.
  assert ((2030%Z, "Wind"%string) ∈ d_PERIOD_Curtailment_MAX wind_data)
    as Hk by (apply (bool_decide_unpack _); vm_compute; exact I).
  assert (pairs_of_source example_model 2030 "Wind" = [])
    as Hnil by (vm_compute; reflexivity).
  split; [exact Hk |]. split; [exact Hnil |].
  apply (build_ValueError_without_pair example_model wind_data
           2030%Z "Wind"%string); [| | | exact Hk | exact Hnil].
  - intros p' e' Hin. simpl in Hin.
    apply list_elem_of_singleton in Hin as [= -> ->].
    split; apply (bool_decide_unpack _); vm_compute; exact I.
  - intros k v Hin. simpl in Hin.
    apply list_elem_of_singleton in Hin as [= -> ->].
    split; [apply (bool_decide_unpack _); vm_compute; exact I |].
    vm_compute. discriminate.
  - intros p' e' gt Hin. simpl in Hin.
    apply list_elem_of_singleton in Hin as [= -> ->].
    rewrite Hnil. by inversion 1.
Defined.

(** X4. within=NonNegativeReals: when the keys are in order and every rate
    sits at an offered key, a negative rate makes the build raise a
    RuntimeError, the exception in which the construction of the Param
    wraps the rejected value. *)
Theorem build_RuntimeError_negative_rate mod_ data k v :
  (∀ p e, (p, e) ∈ d_PERIOD_Curtailment_MAX data →
          p ∈ PERIODS mod_ ∧ e ∈ ENERGY_SOURCES mod_) →
  (∀ k' v', (k', v') ∈ d_max_curtailment_Rate data →
            k' ∈ d_PERIOD_Curtailment_MAX data) →
  (k, v) ∈ d_max_curtailment_Rate data →
  v < 0 →
  define_components mod_ data = Raise RuntimeError.
Proof.
  intros Hkeys Hidx Hin Hv. unfold define_components.
  destruct (Set_construct_total (PERIOD_Curtailment_MAX_validate mod_)
              (d_PERIOD_Curtailment_MAX data) []) as [keys Hs].
  { intros [p e] Hk. by apply PERIOD_Curtailment_MAX_validate_true, Hkeys. }
  rewrite Hs. simpl. apply Set_construct_Ok in Hs as [_ Hs].
  unfold Param_construct.
  rewrite (Param_store_Raise _ _ _ _ k v); [done | | done |].
  - intros k' v' Hkv. apply Hs. right. by eapply Hidx.
  - apply not_true_is_false. unfold NonNegativeReals.
    rewrite Qle_bool_iff. lra.
Qed.

Lemma build_RuntimeError_negative_rate_witness :
  ((2030%Z, "Solar"%string), -1 # 10) ∈ d_max_curtailment_Rate negative_data ∧
  -1 # 10 < 0 ∧
  define_components example_model negative_data = Raise RuntimeError.
Proof.
  assert (((2030%Z, "Solar"%string), -1 # 10)
          ∈ d_max_curtailment_Rate negative_data)
    as Hin by (simpl; left).
  assert (-1 # 10 < 0) as Hv by reflexivity.
  split; [exact Hin |]. split; [exact Hv |].
  apply (build_RuntimeError_negative_rate example_model negative_data
           (2030%Z, "Solar"%string) (-1 # 10)); [| | exact Hin | exact Hv].
  - intros p e Hk. simpl in Hk.
    apply list_elem_of_singleton in Hk as [= -> ->].
    split; apply (bool_decide_unpack _); vm_compute; exact I.
  - intros k' v' Hk. simpl in Hk.
    apply list_elem_of_singleton in Hk as [= -> ->]. simpl. left.
Defined.

Lemma Param_store_is_Some index within entries acc d k :
  Param_store index within entries acc = Ok d →
  is_Some (acc !! k) ∨ k ∈ entries.*1 → is_Some (d !! k).
Proof.
  revert acc. induction entries as [|[k0 v0] l IH]; intros acc; simpl.
  - intros [= <-] [? | Hin]; [done | by inversion Hin].
  - case_bool_decide as Hk0; [|done]. destruct (within v0); [|done].
    intros Hs Hk. apply (IH _ Hs).
    destruct (decide (k0 = k)) as [-> | Hne].
    + left. by rewrite lookup_insert_eq.
    + destruct Hk as [Hk | Hk].
      * left. by rewrite lookup_insert_ne.
      * right. apply elem_of_cons in Hk as [Hk | Hk]; [|done].
        simpl in Hk. congruence.
Qed.

(** X5. Every key of a built model reads a non-negative rate: a rate the
    data gives it, or the default 1 when the data gives it none. *)
Theorem max_curtailment_Rate_nonnegative mod_ data m k :
  define_components mod_ data = Ok m →
  k ∈ PERIOD_Curtailment_MAX m →
  ∃ r, Param_getitem (max_curtailment_Rate m) k = Ok r ∧ 0 <= r ∧
       ((k, r) ∈ d_max_curtailment_Rate data ∨
        ((k ∉ (d_max_curtailment_Rate data).*1) ∧ r = 1)).
Proof.
  intros Hm Hk. destruct (built_rate _ _ _ _ Hm Hk) as (r & Hr & Hpos).
  exists r. split; [done |]. split; [done |].
  destruct (define_components_Ok _ _ _ Hm)
    as (keys & rate & cost & dc & cr & _ & Hrate & _ & _ & _ & ->).
  apply bind_Ok in Hrate as (d & Hd & [= <-]). simpl in *.
  unfold Param_getitem in Hr. simpl in Hr.
  destruct (d !! k) as [v|] eqn:Hv.
  - injection Hr as ->. left.
    destruct (Param_store_lookup _ _ _ _ _ _ _ Hd Hv) as [Hacc | Hin];
      [by rewrite lookup_empty in Hacc | done].
  - right. rewrite bool_decide_eq_true_2 in Hr by done.
    injection Hr as <-. split; [|done].
    intros Hin.
    destruct (Param_store_is_Some _ _ _ _ _ k Hd) as [v' Hv']; [by right |].
    congruence.
Qed.

Lemma max_curtailment_Rate_nonnegative_witness :
  define_components example_model example_data = Ok example_built ∧
  (2030%Z, "Solar"%string) ∈ PERIOD_Curtailment_MAX example_built ∧
  ∃ r, Param_getitem (max_curtailment_Rate example_built)
         (2030%Z, "Solar"%string) = Ok r ∧ 0 <= r ∧
       (((2030%Z, "Solar"%string), r) ∈ d_max_curtailment_Rate example_data ∨
        (((2030%Z, "Solar"%string)
          ∉ (d_max_curtailment_Rate example_data).*1) ∧ r = 1)).
Proof.
  assert (define_components example_model example_data = Ok example_built)
    as Hm by (vm_compute; reflexivity).
  assert ((2030%Z, "Solar"%string) ∈ PERIOD_Curtailment_MAX example_built)
    as Hk by (apply (bool_decide_unpack _); vm_compute; exact I).
  split; [exact Hm |]. split; [exact Hk |].
  exact (max_curtailment_Rate_nonnegative example_model example_data
           example_built (2030%Z, "Solar"%string) Hm Hk).
Defined.

Lemma Expression_construct_keys {K} (rule : K → result pyval)
    (index : list K) es :
  Expression_construct rule index = Ok es → es.*1 = index.
Proof.
  unfold Expression_construct. rewrite mapM_Ok.
  induction 1 as [|k kc l cs Hk _ IH]; [done |].
  rewrite fmap_cons, IH. f_equal.
  apply bind_Ok in Hk as (v & _ & Hk). by injection Hk as <-.
Qed.

(** X6. A built model has one Dispatch_Curtailment constraint per element of
    GEN_TPS, in that order, each of them the equality of its pair, and one
    Curtailment_Cost expression and one Curtailment_Rate inequality per key
    of PERIOD_Curtailment_MAX, a set in which no key is repeated even when
    the data repeats it; it has no other constraint. *)
Theorem built_components_indexed mod_ data m :
  define_components mod_ data = Ok m →
  NoDup (PERIOD_Curtailment_MAX m) ∧
  (Curtailment_Cost m).*1 = PERIOD_Curtailment_MAX m ∧
  (Curtailment_Rate m).*1 = PERIOD_Curtailment_MAX m ∧
  (Dispatch_Curtailment m).*1 = GEN_TPS mod_ ∧
  (∀ g t c, ((g, t), c) ∈ Dispatch_Curtailment m →
     c = {| c_lhs := EAdd (ELeaf (DispatchGen g t))
                          (ELeaf (Curtailment g t));
            c_rel := REq;
            c_rhs := ELeaf (DispatchUpperLimit g t) |}) ∧
  (∀ k c, (k, c) ∈ Curtailment_Rate m → c_rel c = RLe).
Proof.
  intros Hm.
  pose proof (built_Dispatch_Curtailment _ _ _ Hm) as Hdc.
  pose proof (λ k c, built_Curtailment_Rate _ _ _ k c Hm) as Hcr.
  destruct (define_components_Ok _ _ _ Hm)
    as (keys & rate & cost & dc & cr & Hkeys & _ & Hcost & _ & Hrate & ->).
  simpl in *. split; [|split; [|split; [|split; [|split]]]].
  - apply (Set_construct_NoDup _ _ _ _ Hkeys). constructor.
  - by apply Expression_construct_keys in Hcost.
  - by apply Constraint_construct_keys in Hrate.
  - rewrite Hdc, <- list_fmap_compose. apply list_fmap_id.
  - intros g t c Hin. rewrite Hdc in Hin.
    apply list_elem_of_fmap in Hin as ([g' t'] & Heq & _).
    simpl in Heq. by injection Heq as -> -> ->.
  - intros [p e] c Hin. destruct (Hcr _ _ Hin) as [_ Hrule].
    by apply Curtailment_Rate_rule_Ok in Hrule as (r & _ & Hrel & _).
Qed.

Lemma built_components_indexed_witness :
  define_components example_model example_data = Ok example_built ∧
  NoDup (PERIOD_Curtailment_MAX example_built) ∧
  (Curtailment_Cost example_built).*1 = PERIOD_Curtailment_MAX example_built ∧
  (Curtailment_Rate example_built).*1 = PERIOD_Curtailment_MAX example_built ∧
  (Dispatch_Curtailment example_built).*1 = GEN_TPS example_model.
Proof.
  assert (define_components example_model example_data = Ok example_built)
    as Hm by (vm_compute; reflexivity).
  split; [exact Hm |].
  destruct (built_components_indexed example_model example_data
              example_built Hm) as (H1 & H2 & H3 & H4 & _).
  split; [exact H1 |]. split; [exact H2 |]. split; [exact H3 | exact H4].
Defined.

(** ** What the constraints allow *)

Lemma feasible_cap mod_ data m sol p e r :
  define_components mod_ data = Ok m →
  feasible m sol →
  (p, e) ∈ PERIOD_Curtailment_MAX m →
  Param_getitem (max_curtailment_Rate m) (p, e) = Ok r →
  weighted_total mod_ p e Curtailment sol
  <= r * weighted_total mod_ p e DispatchUpperLimit sol.
Proof.
  intros Hm Hsol Hk Hr.
  destruct (define_components_Ok _ _ _ Hm)
    as (keys & rate & cost & dc & cr & _ & _ & _ & _ & Hcr & ->).
  simpl in *.
  destruct (Constraint_construct_elem _ _ _ _ Hcr Hk) as (c & Hc & Hin).
  apply Curtailment_Rate_rule_Ok in Hc as (r' & Hr' & Hrel & Hval).
  assert (r' = r) as -> by congruence.
  destruct Hsol as (_ & _ & Hsat). specialize (Hsat _ _ Hin).
  unfold satisfies in Hsat. rewrite Hrel in Hsat.
  destruct (Hval sol) as [<- <-]. done.
Qed.

Lemma feasible_intro mod_ data m sol :
  define_components mod_ data = Ok m →
  (∀ g t, (g, t) ∈ GEN_TPS mod_ →
     0 <= sol (Curtailment g t) ∧
     sol (DispatchGen g t) + sol (Curtailment g t)
     == sol (DispatchUpperLimit g t)) →
  (∀ p e r, (p, e) ∈ PERIOD_Curtailment_MAX m →
     Param_getitem (max_curtailment_Rate m) (p, e) = Ok r →
     weighted_total mod_ p e Curtailment sol
     <= r * weighted_total mod_ p e DispatchUpperLimit sol) →
  feasible m sol.
Proof.
  intros Hm Heq Hcap.
  pose proof (built_Dispatch_Curtailment _ _ _ Hm) as Hdc.
  pose proof (λ k c, built_Curtailment_Rate _ _ _ k c Hm) as Hcr.
  split; [|split].
  - intros g t Hgt.
    destruct (define_components_Ok _ _ _ Hm)
      as (keys & rate & cost & dc & cr & _ & _ & _ & _ & _ & ->).
    simpl in *. apply Qle_bool_iff. by apply Heq.
  - intros [g t] c Hin. rewrite Hdc in Hin.
    apply list_elem_of_fmap in Hin as ([g' t'] & Hc & Hgt).
    simpl in Hc. injection Hc as -> -> ->.
    unfold satisfies. simpl. by apply Heq.
  - intros [p e] c Hin. destruct (Hcr _ _ Hin) as [Hk Hrule].
    apply Curtailment_Rate_rule_Ok in Hrule as (r & Hr & Hrel & Hval).
    unfold satisfies. rewrite Hrel.
    destruct (Hval sol) as [-> ->]. by apply Hcap.
Qed.

(** X7. The feasible solutions of a built model are exactly those in which,
    at every pair of GEN_TPS, Curtailment is non-negative and DispatchGen +
    Curtailment equals DispatchUpperLimit, and in which, for every key
    (p, e), the weighted curtailment of the energy source in the period is
    at most the rate of the key times its weighted dispatch ceiling.  The
    module constrains nothing else. *)
Theorem feasible_iff mod_ data m sol :
  define_components mod_ data = Ok m →
  feasible m sol ↔
  (∀ g t, (g, t) ∈ GEN_TPS mod_ →
     0 <= sol (Curtailment g t) ∧
     sol (DispatchGen g t) + sol (Curtailment g t)
     == sol (DispatchUpperLimit g t)) ∧
  (∀ p e r, (p, e) ∈ PERIOD_Curtailment_MAX m →
     Param_getitem (max_curtailment_Rate m) (p, e) = Ok r →
     weighted_total mod_ p e Curtailment sol
     <= r * weighted_total mod_ p e DispatchUpperLimit sol).
Proof.
  intros Hm. split.
  - intros Hsol. split.
    + intros g t Hgt.
      destruct (feasible_equality _ _ _ _ _ _ Hm Hgt Hsol) as (_ & ? & ?).
      done.
    + intros p e r. by apply (feasible_cap _ data).
  - intros [Heq Hcap]. by eapply feasible_intro.
Qed.

Lemma feasible_iff_witness :
  define_components example_model example_data = Ok example_built ∧
  (feasible example_built example_solution ↔
   (∀ g t, (g, t) ∈ GEN_TPS example_model →
      0 <= example_solution (Curtailment g t) ∧
      example_solution (DispatchGen g t) + example_solution (Curtailment g t)
      == example_solution (DispatchUpperLimit g t)) ∧
   (∀ p e r, (p, e) ∈ PERIOD_Curtailment_MAX example_built →
      Param_getitem (max_curtailment_Rate example_built) (p, e) = Ok r →
      weighted_total example_model p e Curtailment example_solution
      <= r * weighted_total example_model p e DispatchUpperLimit
               example_solution)).
Proof.
  assert (define_components example_model example_data = Ok example_built)
    as Hm by (vm_compute; reflexivity).
  split; [exact Hm |].
  exact (feasible_iff example_model example_data example_built
           example_solution Hm).
Defined.

Lemma Qsum_nonneg (l : list Q) : Forall (λ x, 0 <= x) l → 0 <= Qsum l.
Proof.
  induction 1 as [|x l Hx _ IH]; [by unfold Qsum |].
  rewrite Qsum_cons. lra.
Qed.

Lemma Qsum_zero (l : list Q) :
  Forall (λ x, 0 <= x) l → Qsum l <= 0 → Forall (λ x, x == 0) l.
Proof.
  induction 1 as [|x l Hx Hl IH]; [constructor |].
  rewrite Qsum_cons. intros Hle.
  pose proof (Qsum_nonneg l Hl).
  constructor; [lra | apply IH; lra].
Qed.

Lemma weighted_total_nonneg mod_ p e x sol :
  (∀ gt, gt ∈ pairs_of_source mod_ p e →
         0 <= sol (x gt.1 gt.2) * tp_weight mod_ gt.2) →
  0 <= weighted_total mod_ p e x sol.
Proof.
  intros H. apply Qsum_nonneg, Forall_fmap, Forall_forall.
  intros gt Hgt. by apply H.
Qed.

(** X8. The module alone never leaves a model without a solution: where
    the dispatch ceilings and the weights of the timepoints are
    non-negative, dispatching every project at its ceiling and curtailing
    nothing is feasible, whatever the rates. *)
Theorem no_curtailment_feasible mod_ data m sol :
  define_components mod_ data = Ok m →
  (∀ g t, (g, t) ∈ GEN_TPS mod_ →
          0 <= sol (DispatchUpperLimit g t) ∧ 0 <= tp_weight mod_ t) →
  feasible m (no_curtailment sol).
Proof.
  intros Hm Hpos. apply (feasible_intro _ _ _ _ Hm).
  - intros g t _. simpl. split; lra.
  - intros p e r Hk Hr.
    destruct (built_rate _ _ _ _ Hm Hk) as (r' & Hr' & Hrpos).
    assert (r' = r) as -> by congruence.
    destruct (built_pairs _ _ _ _ _ Hm Hk) as [_ Hsub].
    assert (weighted_total mod_ p e Curtailment (no_curtailment sol) == 0)
      as ->.
    { unfold weighted_total.
      induction (pairs_of_source mod_ p e) as [|gt l IH]; [done |].
      rewrite fmap_cons, Qsum_cons, IH; [simpl; lra |].
      intros gt' Hgt'. apply Hsub. by right. }
    apply Qmult_le_0_compat; [done |].
    apply weighted_total_nonneg. intros [g t] Hgt. simpl.
    destruct (Hpos g t (Hsub _ Hgt)). by apply Qmult_le_0_compat.
Qed.

Lemma no_curtailment_feasible_witness :
  define_components example_model zero_data = Ok zero_built ∧
  feasible zero_built (no_curtailment example_solution).
Proof.
  assert (define_components example_model zero_data = Ok zero_built)
    as Hm by (vm_compute; reflexivity).
  split; [exact Hm |].
  apply (no_curtailment_feasible example_model zero_data zero_built
           example_solution Hm).
  intros g t _. split; vm_compute; discriminate.
Defined.

(** X9. A rate of 1 or more never binds: in a feasible solution, for any
    period and energy source of which every pair is in GEN_TPS with
    non-negative dispatch and weight, the weighted curtailment is at most
    the rate times the weighted ceiling.  The default 1 leaves a key as
    free as no key at all. *)
Theorem rate_of_one_or_more_never_binds mod_ data m sol p e r :
  define_components mod_ data = Ok m →
  feasible m sol →
  (∀ gt, gt ∈ pairs_of_source mod_ p e →
         gt ∈ GEN_TPS mod_ ∧ 0 <= sol (DispatchGen gt.1 gt.2) ∧
         0 <= tp_weight mod_ gt.2) →
  1 <= r →
  weighted_total mod_ p e Curtailment sol
  <= r * weighted_total mod_ p e DispatchUpperLimit sol.
Proof.
  intros Hm Hsol Hpairs Hr.
  pose proof (rate_one_never_binds _ _ _ _ p e Hm Hsol Hpairs) as Hone.
  rewrite Qmult_1_l in Hone.
  assert (0 <= weighted_total mod_ p e Curtailment sol) as Hcur.
  { apply weighted_total_nonneg. intros [g t] Hgt.
    destruct (Hpairs _ Hgt) as (Hin & _ & Hw). simpl in *.
    destruct (feasible_equality _ _ _ _ _ _ Hm Hin Hsol) as (_ & _ & Hc).
    by apply Qmult_le_0_compat. }
  nra.
Qed.

Lemma rate_of_one_or_more_never_binds_witness :
  define_components example_model example_data = Ok example_built ∧
  feasible example_built example_solution ∧
  1 <= 3 ∧
  weighted_total example_model 2030 "Gas" Curtailment example_solution
  <= 3 * weighted_total example_model 2030 "Gas" DispatchUpperLimit
           example_solution.
Proof.
  assert (define_components example_model example_data = Ok example_built)
    as Hm by (vm_compute; reflexivity).
  assert (1 <= 3) as Hr by (vm_compute; discriminate).
  split; [exact Hm |]. split; [exact example_solution_feasible |].
  split; [exact Hr |].
  apply (rate_of_one_or_more_never_binds example_model example_data
           example_built example_solution 2030%Z "Gas"%string 3 Hm
           example_solution_feasible); [|exact Hr].
  intros gt Hgt. vm_compute in Hgt.
  apply list_elem_of_singleton in Hgt as ->.
  split; [apply (bool_decide_unpack _); vm_compute; exact I |].
  split; vm_compute; discriminate.
Defined.

(** X10. A rate of 0 forbids curtailment: in a feasible solution of a built
    model, if the key (p, e) has rate 0 and the timepoints of p have
    positive weight, then every project of energy source e has no
    curtailment at any timepoint of p and is dispatched at its ceiling. *)
Theorem zero_rate_forbids_curtailment mod_ data m sol p e r :
  define_components mod_ data = Ok m →
  feasible m sol →
  (p, e) ∈ PERIOD_Curtailment_MAX m →
  Param_getitem (max_curtailment_Rate m) (p, e) = Ok r →
  r == 0 →
  (∀ t, t ∈ TPS_IN_PERIOD mod_ p → 0 < tp_weight mod_ t) →
  ∀ g t, g ∈ GENERATION_PROJECTS mod_ → gen_energy_source mod_ g = e →
         t ∈ TPS_IN_PERIOD mod_ p →
         sol (Curtailment g t) == 0 ∧
         sol (DispatchGen g t) == sol (DispatchUpperLimit g t).
Proof.
  intros Hm Hsol Hk Hr Hzero Hw g t Hg He Ht.
  pose proof (feasible_cap _ _ _ _ _ _ _ Hm Hsol Hk Hr) as Hcap.
  rewrite Hzero, Qmult_0_l in Hcap.
  destruct (built_pairs _ _ _ _ _ Hm Hk) as [_ Hsub].
  assert ((g, t) ∈ pairs_of_source mod_ p e) as Hgt
    by by apply elem_of_pairs_of_source.
  assert (∀ gt, gt ∈ pairs_of_source mod_ p e →
                0 <= sol (Curtailment gt.1 gt.2) ∧ 0 < tp_weight mod_ gt.2)
    as Hpos.
  { intros [g' t'] Hgt'. simpl.
    destruct (feasible_equality _ _ _ _ _ _ Hm (Hsub _ Hgt') Hsol)
      as (_ & _ & Hc).
    split; [done |]. apply Hw.
    by apply elem_of_pairs_of_source in Hgt' as (_ & ? & _). }
  apply Qsum_zero in Hcap.
  - rewrite Forall_fmap, Forall_forall in Hcap.
    specialize (Hcap _ Hgt). simpl in Hcap.
    destruct (Hpos _ Hgt) as [Hc Hwt]. simpl in *.
    destruct (feasible_equality _ _ _ _ _ _ Hm (Hsub _ Hgt) Hsol)
      as (_ & Heq & _).
    assert (sol (Curtailment g t) == 0) as Hcur by nra.
    split; [done | lra].
  - apply Forall_fmap, Forall_forall. intros gt' Hgt'. simpl.
    destruct (Hpos _ Hgt'). apply Qmult_le_0_compat; lra.
Qed.

Lemma zero_rate_forbids_curtailment_witness :
  define_components example_model zero_data = Ok zero_built ∧
  feasible zero_built (no_curtailment example_solution) ∧
  (2030%Z, "Solar"%string) ∈ PERIOD_Curtailment_MAX zero_built ∧
  Param_getitem (max_curtailment_Rate zero_built) (2030%Z, "Solar"%string)
    = Ok 0 ∧
  no_curtailment example_solution (Curtailment "G1" 1) == 0 ∧
  no_curtailment example_solution (DispatchGen "G1" 1)
  == no_curtailment example_solution (DispatchUpperLimit "G1" 1).
Proof.
  assert (define_components example_model zero_data = Ok zero_built)
    as Hm by (vm_compute; reflexivity).
  assert (feasible zero_built (no_curtailment example_solution)) as Hsol.
  { split; [|split].
    - intros g t _. reflexivity.
    - intros gt c H. simpl in H.
      repeat (apply elem_of_cons in H as [[= -> ->] | H]; [by vm_compute |]).
      by inversion H.
    - intros k c H. simpl in H.
      apply elem_of_cons in H as [[= -> ->] | H]; [| by inversion H].
      unfold satisfies. simpl. lra. }
  assert ((2030%Z, "Solar"%string) ∈ PERIOD_Curtailment_MAX zero_built)
    as Hk by (apply (bool_decide_unpack _); vm_compute; exact I).
  assert (Param_getitem (max_curtailment_Rate zero_built)
            (2030%Z, "Solar"%string) = Ok 0)
    as Hr by (vm_compute; reflexivity).
  split; [exact Hm |]. split; [exact Hsol |]. split; [exact Hk |].
  split; [exact Hr |].
  apply (zero_rate_forbids_curtailment example_model zero_data zero_built
           (no_curtailment example_solution) 2030%Z "Solar"%string 0
           Hm Hsol Hk Hr).
  - reflexivity.
  - intros t _. reflexivity.
  - apply (bool_decide_unpack _); vm_compute; exact I.
  - reflexivity.
  - apply (bool_decide_unpack _); vm_compute; exact I.
Defined.

Lemma Expression_construct_elem {K} (rule : K → result pyval)
    (index : list K) es k :
  Expression_construct rule index = Ok es → k ∈ index →
  ∃ v, rule k = Ok v ∧ (k, to_expr v) ∈ es.
Proof.
  intros H Hk. destruct (mapM_Ok_elem _ _ _ _ H Hk) as (kx & Hr & Hin).
  apply bind_Ok in Hr as (v & Hrule & Hr). injection Hr as <-. eauto.
Qed.

(** X11. For every key (p, e) a built model holds the expression
    Curtailment_Cost[p, e], whose value in a solution is the sum of
    Curtailment[g, t] over the projects of energy source e and the
    timepoints of period p, without weights; in a feasible solution it is
    non-negative. *)
Theorem Curtailment_Cost_value mod_ data m p e :
  define_components mod_ data = Ok m →
  (p, e) ∈ PERIOD_Curtailment_MAX m →
  ∃ x, ((p, e), x) ∈ Curtailment_Cost m ∧
    ∀ sol,
      evaluate sol x
      == Qsum ((λ gt, sol (Curtailment gt.1 gt.2))
               <$> pairs_of_source mod_ p e) ∧
      (feasible m sol → 0 <= evaluate sol x).
Proof.
  intros Hm Hk.
  destruct (built_pairs _ _ _ _ _ Hm Hk) as [_ Hsub].
  pose proof (λ g t sol Hgt, feasible_equality _ _ _ g t sol Hm Hgt) as Hfe.
  destruct (define_components_Ok _ _ _ Hm)
    as (keys & rate & cost & dc & cr & _ & _ & Hcost & _ & _ & Heq).
  rewrite Heq in Hk |- *. simpl in *.
  destruct (Expression_construct_elem _ _ _ _ Hcost Hk) as (v & Hv & Hin).
  exists (to_expr v). split; [done |].
  unfold Curtailment_Cost_rule in Hv.
  apply bind_Ok in Hv as (terms & Hterms & Hv).
  assert (v = py_sum terms) as -> by congruence.
  apply (mapM_Ok_fmap _ (λ gt, PExpr (ELeaf (Curtailment gt.1 gt.2))))
    in Hterms as ->.
  - intros sol.
    assert (evaluate sol (to_expr (py_sum
              ((λ gt, PExpr (ELeaf (Curtailment gt.1 gt.2)))
               <$> pairs_of_source mod_ p e)))
            == Qsum ((λ gt, sol (Curtailment gt.1 gt.2))
                     <$> pairs_of_source mod_ p e)) as Hval.
    { change (evaluate sol (to_expr ?v)) with (value sol v).
      by rewrite value_py_sum, <- list_fmap_compose. }
    split; [exact Hval |]. intros Hsol. rewrite Hval.
    apply Qsum_nonneg, Forall_fmap, Forall_forall. intros [g t] Hgt.
    simpl. rewrite <- Heq in Hsol.
    by destruct (Hfe g t sol (Hsub _ Hgt) Hsol) as (_ & _ & ?).
  - intros [g t] v' _ Hv'. simpl in Hv'.
    by apply Curtailment_getitem_Ok in Hv' as [_ ->].
Qed.

Lemma Curtailment_Cost_value_witness :
  define_components example_model example_data = Ok example_built ∧
  (2030%Z, "Solar"%string) ∈ PERIOD_Curtailment_MAX example_built ∧
  ∃ x, ((2030%Z, "Solar"%string), x) ∈ Curtailment_Cost example_built ∧
    ∀ sol,
      evaluate sol x
      == Qsum ((λ gt, sol (Curtailment gt.1 gt.2))
               <$> pairs_of_source example_model 2030 "Solar") ∧
      (feasible example_built sol → 0 <= evaluate sol x).
Proof.
  assert (define_components example_model example_data = Ok example_built)
    as Hm by (vm_compute; reflexivity).
  assert ((2030%Z, "Solar"%string) ∈ PERIOD_Curtailment_MAX example_built)
    as Hk by (apply (bool_decide_unpack _); vm_compute; exact I).
  split; [exact Hm |]. split; [exact Hk |].
  exact (Curtailment_Cost_value example_model example_data example_built
           2030%Z "Solar"%string Hm Hk).
Defined.

(** ** The report of a feasible solution *)

Lemma dispatch_record_curtailed mod_ sol g t :
  sol (DispatchGen g t) + sol (Curtailment g t)
  == sol (DispatchUpperLimit g t) →
  0 <= sol (Curtailment g t) →
  let r := dispatch_record mod_ sol (g, t) in
  let w := tp_weight_in_year mod_ t in
  Dispatch.DispatchGen_MW_ideal r - Dispatch.DispatchGen_MW_actual r
  == sol (Curtailment g t) ∧
  Dispatch.Energy_GWh_typical_yr_ideal r
  - Dispatch.Energy_GWh_typical_yr_actual r
  == sol (Curtailment g t) * w / 1000 ∧
  Dispatch.DispatchGen_MW_actual r <= Dispatch.DispatchGen_MW_ideal r ∧
  (0 <= w →
   Dispatch.Energy_GWh_typical_yr_actual r
   <= Dispatch.Energy_GWh_typical_yr_ideal r).
Proof.
  intros Heq Hc. simpl. unfold value. simpl.
  split; [lra |]. split; [rewrite <- Heq; field |]. split; [lra |].
  intros Hw. unfold Qdiv. apply Qmult_le_compat_r.
  - apply Qmult_le_compat_r; [lra | done].
  - vm_compute. discriminate.
Qed.

(** X12. In the report of a feasible solution of a built model, the record
    of a pair of GEN_TPS has the curtailment of the pair as the difference
    between ideal and actual dispatch, and the curtailed energy,
    Curtailment[g, t] * tp_weight_in_year[t] / 1000, as the difference
    between ideal and actual energy; actual dispatch never exceeds the
    ideal one, nor does actual energy when the weight is non-negative. *)
Theorem report_of_feasible_solution mod_ data m sol g t :
  define_components mod_ data = Ok m →
  feasible m sol →
  (g, t) ∈ GEN_TPS mod_ →
  let r := dispatch_record mod_ sol (g, t) in
  let w := tp_weight_in_year mod_ t in
  Dispatch.DispatchGen_MW_ideal r - Dispatch.DispatchGen_MW_actual r
  == sol (Curtailment g t) ∧
  Dispatch.Energy_GWh_typical_yr_ideal r
  - Dispatch.Energy_GWh_typical_yr_actual r
  == sol (Curtailment g t) * w / 1000 ∧
  Dispatch.DispatchGen_MW_actual r <= Dispatch.DispatchGen_MW_ideal r ∧
  (0 <= w →
   Dispatch.Energy_GWh_typical_yr_actual r
   <= Dispatch.Energy_GWh_typical_yr_ideal r).
Proof.
  intros Hm Hsol Hgt.
  destruct (feasible_equality _ _ _ _ _ _ Hm Hgt Hsol) as (_ & Heq & Hc).
  by apply dispatch_record_curtailed.
Qed.

Lemma report_of_feasible_solution_witness :
  define_components example_model example_data = Ok example_built ∧
  feasible example_built example_solution ∧
  ("G1"%string, 1%Z) ∈ GEN_TPS example_model ∧
  0 <= tp_weight_in_year example_model 1 ∧
  let r := dispatch_record example_model example_solution
             ("G1"%string, 1%Z) in
  Dispatch.DispatchGen_MW_ideal r - Dispatch.DispatchGen_MW_actual r
  == example_solution (Curtailment "G1" 1) ∧
  Dispatch.Energy_GWh_typical_yr_actual r
  <= Dispatch.Energy_GWh_typical_yr_ideal r.
Proof.
  assert (define_components example_model example_data = Ok example_built)
    as Hm by (vm_compute; reflexivity).
  assert (("G1"%string, 1%Z) ∈ GEN_TPS example_model)
    as Hgt by (apply (bool_decide_unpack _); vm_compute; exact I).
  assert (0 <= tp_weight_in_year example_model 1)
    as Hw by (vm_compute; discriminate).
  split; [exact Hm |]. split; [exact example_solution_feasible |].
  split; [exact Hgt |]. split; [exact Hw |].
  destruct (report_of_feasible_solution example_model example_data
              example_built example_solution "G1" 1%Z Hm
              example_solution_feasible Hgt) as (H1 & _ & _ & H4).
  split; [exact H1 | exact (H4 Hw)].
Defined.

(** X13. In the Curtailment_energy.csv that post_solve writes for a
    feasible solution of a built model, with non-negative weights in the
    year, no row has more actual than ideal energy. *)
Theorem summary_actual_below_ideal mod_ data m sol outdir path summary :
  define_components mod_ data = Ok m →
  feasible m sol →
  (∀ g t, (g, t) ∈ GEN_TPS mod_ → 0 <= tp_weight_in_year mod_ t) →
  (path, EnergyCsv summary) ∈ fst (post_solve_run mod_ sol outdir) →
  ∀ k row, (k, row) ∈ summary →
    Energy.Energy_GWh_typical_yr_actual row
    <= Energy.Energy_GWh_typical_yr_ideal row.
Proof.
  intros Hm Hsol Hw Hfile.
  apply post_solve_run_summary in Hfile as (_ & _ & ->).
  destruct (energy_csv_rows mod_ sol outdir) as (_ & _ & Hrows).
  intros k row Hin. rewrite (Hrows k row Hin). simpl.
  apply Qsum_le. intros r Hr.
  apply list_elem_of_filter in Hr as [_ Hr].
  apply list_elem_of_fmap in Hr as ([g t] & -> & Hgt).
  destruct (feasible_equality _ _ _ _ _ _ Hm Hgt Hsol) as (_ & Heq & Hc).
  by apply (dispatch_record_curtailed mod_ sol g t Heq Hc), (Hw g t).
Qed.

Lemma summary_actual_below_ideal_witness :
  define_components example_model example_data = Ok example_built ∧
  feasible example_built example_solution ∧
  ∃ summary,
    (path_join "out" "Curtailment_energy.csv", EnergyCsv summary)
      ∈ fst (post_solve_run example_model example_solution "out") ∧
    summary ≠ [] ∧
    ∀ k row, (k, row) ∈ summary →
      Energy.Energy_GWh_typical_yr_actual row
      <= Energy.Energy_GWh_typical_yr_ideal row.
Proof.
  assert (define_components example_model example_data = Ok example_built)
    as Hm by (vm_compute; reflexivity).
  split; [exact Hm |]. split; [exact example_solution_feasible |].
  eexists. split; [vm_compute; right; left |]. split; [discriminate |].
  apply (summary_actual_below_ideal example_model example_data example_built
           example_solution "out" (path_join "out" "Curtailment_energy.csv")
           _ Hm example_solution_feasible).
  - intros g t _. vm_compute. discriminate.
  - vm_compute. right; left.
Defined.

(** ** The order of the summary *)

Lemma key_compare_antisym a b : key_compare b a = CompOpp (key_compare a b).
Proof.
  destruct a as [[t1 s1] p1], b as [[t2 s2] p2]. simpl.
  rewrite (String.compare_antisym t2 t1), (String.compare_antisym s2 s1),
    (Z.compare_antisym p1 p2).
  by destruct (String.compare t1 t2), (String.compare s1 s2),
       (Z.compare p1 p2).
Qed.

Lemma key_compare_Eq a b : key_compare a b = Eq → a = b.
Proof.
  destruct a as [[t1 s1] p1], b as [[t2 s2] p2]. simpl.
  destruct (String.compare t1 t2) eqn:Ht; try done.
  destruct (String.compare s1 s2) eqn:Hs; try done.
  intros Hp. apply String.compare_eq_iff in Ht, Hs.
  apply Z.compare_eq_iff in Hp. by subst.
Qed.

Lemma key_le_total : Total key_le.
Proof.
  intros a b. unfold key_le. rewrite (key_compare_antisym a b).
  destruct (key_compare a b); simpl; [by left | by left | by right].
Qed.

Lemma Sorted_key_strict (l : list (string * string * Z)) :
  Sorted key_le l → NoDup l → Sorted (λ a b, key_compare a b = Lt) l.
Proof.
  induction 1 as [|k l _ IH Hhd]; intros Hnd; [constructor |].
  apply NoDup_cons in Hnd as [Hk Hnd].
  constructor; [by apply IH |].
  destruct Hhd as [|k' l' Hle]; constructor.
  unfold key_le in Hle.
  destruct (key_compare k k') eqn:Hc; [|done | done].
  apply key_compare_Eq in Hc as ->. destruct Hk. left.
Qed.

(** X15. The rows of the Curtailment_energy.csv that post_solve writes come
    in increasing order of (gen_tech, gen_energy_source, period), compared
    column by column: the key of every row is strictly below the key of the
    next one. *)
Theorem summary_in_key_order instance sol outdir path summary :
  (path, EnergyCsv summary) ∈ fst (post_solve_run instance sol outdir) →
  Sorted (λ a b, key_compare a b = Lt) summary.*1.
Proof.
  intros Hfile. apply post_solve_run_summary in Hfile as (_ & _ & ->).
  destruct (energy_csv_rows instance sol outdir) as (_ & Hkeys & _).
  rewrite Hkeys.
  apply Sorted_key_strict; [|apply group_keys_NoDup].
  apply (@Sorted_merge_sort _ key_le _ key_le_total).
Qed.

Lemma summary_in_key_order_witness :
  ∃ summary,
    (path_join "out" "Curtailment_energy.csv", EnergyCsv summary)
      ∈ fst (post_solve_run example_model example_solution "out") ∧
    summary.*1 = [("CCGT", "Gas", 2030%Z); ("PV", "Solar", 2030%Z)]%string ∧
    Sorted (λ a b, key_compare a b = Lt) summary.*1.
Proof.
  eexists. split; [vm_compute; right; left |].
  split; [reflexivity |].
  apply (summary_in_key_order example_model example_solution "out"
           (path_join "out" "Curtailment_energy.csv")).
  vm_compute. right; left.
Defined.

(** ** The path of the input file *)

Lemma ends_with_sep_app (d : string) : ends_with_sep (d +:+ "/") = true.
Proof.
  induction d as [|c d IH]; [done |].
  simpl. destruct (d +:+ "/") eqn:Hd; [by destruct d | exact IH].
Qed.

Lemma append_assoc (a b c : string) : (a +:+ b) +:+ c = a +:+ b +:+ c.
Proof.
  induction a as [|x a IH]; [done |].
  change (String x ((a +:+ b) +:+ c) = String x (a +:+ b +:+ c)).
  by rewrite IH.
Qed.

(** X16. load_inputs reads the same file whether the inputs directory is
    written with or without a trailing separator, and with an empty
    directory it reads curtailment_rate_max.tab itself. *)
Theorem load_inputs_trailing_separator (fs : FileSystem)
    (inputs_dir : string) :
  load_inputs fs "" = load_aug fs "curtailment_rate_max.tab"
    ["Period"; "Energy_Source"; "Max_Curtailment_Rate"]%string ∧
  (inputs_dir ≠ ""%string → ends_with_sep inputs_dir = false →
   load_inputs fs (inputs_dir +:+ "/") = load_inputs fs inputs_dir).
Proof.
  split; [done |]. intros Hne Hsep. unfold load_inputs. f_equal.
  unfold path_join. rewrite ends_with_sep_app, Hsep.
  destruct inputs_dir as [|c d]; [done |].
  simpl. by rewrite append_assoc.
Qed.

Lemma load_inputs_trailing_separator_witness :
  "inputs"%string ≠ ""%string ∧ ends_with_sep "inputs" = false ∧
  load_inputs example_files "inputs/" = load_inputs example_files "inputs".
Proof.
  assert ("inputs"%string ≠ ""%string) as Hne by discriminate.
  assert (ends_with_sep "inputs" = false) as Hsep by reflexivity.
  split; [exact Hne |]. split; [exact Hsep |].
  exact (proj2 (load_inputs_trailing_separator example_files "inputs")
           Hne Hsep).
Defined.

(** ** Raising the rates *)

(** X17. Raising rates, or dropping keys, only relaxes the model: a
    solution feasible under one set of rates stays feasible under rates
    that are no smaller on the keys that remain, where dispatch and
    weights are non-negative. *)
Theorem raising_rates_relaxes mod_ data1 data2 m1 m2 sol :
  define_components mod_ data1 = Ok m1 →
  define_components mod_ data2 = Ok m2 →
  (∀ k r2, k ∈ PERIOD_Curtailment_MAX m2 →
     Param_getitem (max_curtailment_Rate m2) k = Ok r2 →
     k ∈ PERIOD_Curtailment_MAX m1 ∧
     ∃ r1, Param_getitem (max_curtailment_Rate m1) k = Ok r1 ∧ r1 <= r2) →
  (∀ g t, (g, t) ∈ GEN_TPS mod_ →
          0 <= sol (DispatchGen g t) ∧ 0 <= tp_weight mod_ t) →
  feasible m1 sol →
  feasible m2 sol.
Proof.
  intros Hm1 Hm2 Hrates Hpos Hsol. apply (feasible_intro _ _ _ _ Hm2).
  - intros g t Hgt.
    destruct (feasible_equality _ _ _ _ _ _ Hm1 Hgt Hsol) as (_ & ? & ?).
    done.
  - intros p e r2 Hk Hr2.
    destruct (Hrates _ _ Hk Hr2) as (Hk1 & r1 & Hr1 & Hle).
    pose proof (feasible_cap _ _ _ _ _ _ _ Hm1 Hsol Hk1 Hr1) as Hcap.
    destruct (built_pairs _ _ _ _ _ Hm2 Hk) as [_ Hsub].
    assert (0 <= weighted_total mod_ p e DispatchUpperLimit sol) as Hul.
    { apply weighted_total_nonneg. intros [g t] Hgt. simpl.
      destruct (Hpos g t (Hsub _ Hgt)) as [Hgen Hw].
      destruct (feasible_equality _ _ _ _ _ _ Hm1 (Hsub _ Hgt) Hsol)
        as (_ & Heq & Hc).
      apply Qmult_le_0_compat; lra. }
    nra.
Qed.

Lemma raising_rates_relaxes_witness :
  define_components example_model zero_data = Ok zero_built ∧
  define_components example_model example_data = Ok example_built ∧
  feasible zero_built (no_curtailment example_solution) ∧
  feasible example_built (no_curtailment example_solution).
Proof.
  assert (define_components example_model zero_data = Ok zero_built)
    as Hm1 by (vm_compute; reflexivity).
  assert (define_components example_model example_data = Ok example_built)
    as Hm2 by (vm_compute; reflexivity).
  assert (feasible zero_built (no_curtailment example_solution)) as Hsol.
  { split; [|split].
    - intros g t _. reflexivity.
    - intros gt c H. simpl in H.
      repeat (apply elem_of_cons in H as [[= -> ->] | H]; [by vm_compute |]).
      by inversion H.
    - intros k c H. simpl in H.
      apply elem_of_cons in H as [[= -> ->] | H]; [| by inversion H].
      unfold satisfies. simpl. lra. }
  split; [exact Hm1 |]. split; [exact Hm2 |]. split; [exact Hsol |].
  apply (raising_rates_relaxes example_model zero_data example_data
           zero_built example_built (no_curtailment example_solution)
           Hm1 Hm2); [| | exact Hsol].
  - intros k r2 Hk Hr2. simpl in Hk.
    apply list_elem_of_singleton in Hk as ->.
    split; [simpl; left |]. exists 0. split; [by vm_compute |].
    vm_compute in Hr2. injection Hr2 as <-. vm_compute. discriminate.
  - intros g t _. split; vm_compute; discriminate.
Defined.
